(** * TraceBrain web client: a shallow embedding of the trace utilities,
    the explorer filter panel and the trace visualizer, with the
    properties the specification states about them.

    Part I embeds the TypeScript sources (one module per source file);
    Part II states and proves the properties. *)

From stdpp Require Import gmap strings list.
From Stdlib Require Import ZArith Ascii String Floats.SpecFloat.

#[local] Open Scope string_scope.
#[local] Open Scope Z_scope.

(** ** JavaScript numbers and values *)

Module JS.

(** A JavaScript number is an IEEE 754 binary64 value.  [spec_float] is the
    Standard Library's executable specification of such values; NaN carries
    no payload, as in JavaScript. *)
Abbreviation number := spec_float.

Definition prec : Z := 53.
Definition emax : Z := 1024.

Definition NaN : number := S754_nan.
Definition Infinity : number := S754_infinity false.

(** The number denoted by the integer [n] (correctly rounded). *)
Definition of_Z (n : Z) : number := binary_normalize prec emax n 0 false.

(** The number denoted by the decimal literal [m]e-[k], e.g. [0.2] is
    [decimal 2 1]: the double nearest to m / 10^k. *)
Definition decimal (m : Z) (k : nat) : number :=
  SFdiv prec emax (of_Z m) (of_Z (10 ^ Z.of_nat k)).

Definition mul (x y : number) : number := SFmul prec emax x y.
Definition div (x y : number) : number := SFdiv prec emax x y.
Definition add (x y : number) : number := SFadd prec emax x y.
Definition sub (x y : number) : number := SFsub prec emax x y.

(** Relational operators: any comparison with NaN is false. *)
Definition lt (x y : number) : bool := SFltb x y.
Definition le (x y : number) : bool := SFleb x y.
Definition gt (x y : number) : bool := SFltb y x.
Definition ge (x y : number) : bool := SFleb y x.
(** [x === y] on numbers. *)
Definition num_eq (x y : number) : bool := SFeqb x y.

Definition is_nan (x : number) : bool :=
  match x with S754_nan => true | _ => false end.

Definition is_zero (x : number) : bool :=
  match x with S754_zero _ => true | _ => false end.

(** [Math.max(a, b)]: NaN if either is NaN; +0 is larger than -0. *)
Definition Math_max (a b : number) : number :=
  if is_nan a || is_nan b then NaN
  else if lt a b then b
  else if lt b a then a
  else match a, b with
       | S754_zero true, S754_zero false => b
       | _, _ => a
       end.

(** [Math.min(a, b)]: NaN if either is NaN; -0 is smaller than +0. *)
Definition Math_min (a b : number) : number :=
  if is_nan a || is_nan b then NaN
  else if lt a b then a
  else if lt b a then b
  else match a, b with
       | S754_zero false, S754_zero true => b
       | _, _ => a
       end.

(** [Math.round(x)]: the integer nearest to x, ties towards +Infinity;
    NaN, infinities, zeros and integers are returned unchanged, and a
    result of zero keeps the sign of x. *)
Definition Math_round (x : number) : number :=
  match x with
  | S754_finite s m e =>
      if 0 <=? e then x
      else
        let den := 2 ^ (- e) in
        let num := if s then Z.neg m else Z.pos m in
        let n := (2 * num + den) / (2 * den) in
        if n =? 0 then S754_zero s else of_Z n
  | _ => x
  end.

(** *** Strings

    A string of this development is a sequence of bytes, the UTF-8
    encoding of the JavaScript string, as Rocq reads a string literal.
    [code_points] decodes it; a byte that does not start a well-formed
    sequence stands for the code point of its own value. *)

Definition byte (c : ascii) : Z := Z.of_nat (nat_of_ascii c).

Definition is_continuation (b : Z) : bool := (128 <=? b) && (b <=? 191).

Fixpoint code_points (l : list ascii) : list Z :=
  match l with
  | [] => []
  | c :: l1 =>
      let b := byte c in
      if b <? 194 then b :: code_points l1
      else
        match l1 with
        | [] => [b]
        | c1 :: l2 =>
            let b1 := byte c1 in
            if (b <=? 223) && is_continuation b1
            then ((b - 192) * 64 + (b1 - 128)) :: code_points l2
            else
              match l2 with
              | [] => b :: code_points l1
              | c2 :: l3 =>
                  let b2 := byte c2 in
                  let p3 := ((b - 224) * 64 + (b1 - 128)) * 64 + (b2 - 128) in
                  if (224 <=? b) && (b <=? 239) && is_continuation b1
                     && is_continuation b2 && (2048 <=? p3)
                  then p3 :: code_points l3
                  else
                    match l3 with
                    | [] => b :: code_points l1
                    | c3 :: l4 =>
                        let b3 := byte c3 in
                        let p4 :=
                          (((b - 240) * 64 + (b1 - 128)) * 64 + (b2 - 128))
                          * 64 + (b3 - 128) in
                        if (240 <=? b) && (b <=? 244) && is_continuation b1
                           && is_continuation b2 && is_continuation b3
                           && (65536 <=? p4) && (p4 <=? 1114111)
                        then p4 :: code_points l4
                        else b :: code_points l1
                    end
              end
        end
  end.

(** The bytes of a sequence of code points, when all are of ASCII. *)
Fixpoint ascii_of_code_points (l : list Z) : option (list ascii) :=
  match l with
  | [] => Some []
  | p :: l' =>
      if (0 <=? p) && (p <? 128)
      then cons (ascii_of_nat (Z.to_nat p)) <$> ascii_of_code_points l'
      else None
  end.

(** *** [Number(string)]: StringToNumber

    StrWhiteSpaceChar: the code points of WhiteSpace (tab, vertical tab,
    form feed, U+FEFF and the space separators of Unicode: U+0020, U+00A0,
    U+1680, U+2000 to U+200A, U+202F, U+205F, U+3000) and of LineTerminator
    (line feed, carriage return, U+2028, U+2029). *)

Definition is_space (p : Z) : bool :=
  ((9 <=? p) && (p <=? 13)) || (p =? 32) || (p =? 160) || (p =? 5760)
  || ((8192 <=? p) && (p <=? 8202)) || (p =? 8232) || (p =? 8233)
  || (p =? 8239) || (p =? 8287) || (p =? 12288) || (p =? 65279).

Fixpoint trim_left (l : list Z) : list Z :=
  match l with
  | p :: l' => if is_space p then trim_left l' else l
  | [] => []
  end.

Definition trim (l : list Z) : list Z :=
  rev (trim_left (rev (trim_left l))).

Definition digit_of (base : Z) (c : ascii) : option Z :=
  let n := Z.of_nat (nat_of_ascii c) in
  let d := if (48 <=? n) && (n <=? 57) then n - 48
           else if (97 <=? n) && (n <=? 102) then n - 87
           else if (65 <=? n) && (n <=? 70) then n - 55
           else base in
  if d <? base then Some d else None.

(** Reads a maximal run of digits: the value accumulated on [acc], the
    number of digits read, and the rest of the input. *)
Fixpoint read_digits (base : Z) (l : list ascii) (acc : Z) (cnt : nat)
  : Z * nat * list ascii :=
  match l with
  | c :: l' =>
      match digit_of base c with
      | Some d => read_digits base l' (base * acc + d) (S cnt)
      | None => (acc, cnt, l)
      end
  | [] => (acc, cnt, [])
  end.

(** A sign, if there is one (true for minus), and the rest of the input. *)
Definition read_sign (l : list ascii) : bool * list ascii :=
  match l with
  | c :: l' =>
      if Ascii.eqb c "-" then (true, l')
      else if Ascii.eqb c "+" then (false, l')
      else (false, l)
  | [] => (false, l)
  end.

(** The input after a decimal point, if it starts with one. *)
Definition after_point (l : list ascii) : option (list ascii) :=
  match l with
  | c :: l' => if Ascii.eqb c "." then Some l' else None
  | [] => None
  end.

Definition signed (s : bool) (x : number) : number :=
  if s then SFopp x else x.

(** The number nearest to m * 10^e (m >= 0).  Magnitudes far outside the
    binary64 range are decided without building the power of ten. *)
Definition scale10 (m : Z) (digits : nat) (e : Z) : number :=
  if m =? 0 then S754_zero false
  else if 400 <? e then Infinity
  else if e + Z.of_nat digits <? -400 then S754_zero false
  else if 0 <=? e then of_Z (m * 10 ^ e)
  else div (S754_finite false (Z.to_pos m) 0)
           (S754_finite false (Z.to_pos (10 ^ (- e))) 0).

(** NonDecimalIntegerLiteral: 0x.., 0o.., 0b.. (no sign allowed). *)
Definition read_radix (base : Z) (l : list ascii) : number :=
  match read_digits base l 0 0 with
  | (v, S _, []) => of_Z v
  | _ => NaN
  end.

(** The base that the character after a leading 0 announces. *)
Definition radix_of (c : ascii) : option Z :=
  if (Ascii.eqb c "x" || Ascii.eqb c "X")%bool then Some 16
  else if (Ascii.eqb c "o" || Ascii.eqb c "O")%bool then Some 8
  else if (Ascii.eqb c "b" || Ascii.eqb c "B")%bool then Some 2
  else None.

(** ExponentPart, applied to the mantissa read so far. *)
Definition read_exponent (m : Z) (digits : nat) (frac : nat)
  (l : list ascii) : number :=
  match l with
  | [] => scale10 m digits (- Z.of_nat frac)
  | c :: l' =>
      if (Ascii.eqb c "e" || Ascii.eqb c "E")%bool then
        let '(s, l'') := read_sign l' in
        match read_digits 10 l'' 0 0 with
        | (x, S _, []) =>
            scale10 m digits ((if s then - x else x) - Z.of_nat frac)
        | _ => NaN
        end
      else NaN
  end.

(** StrUnsignedDecimalLiteral. *)
Definition read_unsigned_decimal (l : list ascii) : number :=
  if String.eqb (string_of_list_ascii l) "Infinity" then Infinity
  else
    let '(ip, ni, l1) := read_digits 10 l 0 0 in
    match after_point l1 with
    | Some l2 =>
        let '(m, n, l3) := read_digits 10 l2 ip ni in
        match n with
        | O => NaN
        | S _ => read_exponent m n (n - ni) l3
        end
    | None =>
        match ni with
        | O => NaN
        | S _ => read_exponent ip ni 0 l1
        end
    end.

(** StrNumericLiteral, on the characters left after trimming; the empty
    string is 0. *)
Definition read_numeric_literal (l : list ascii) : number :=
  match l with
  | [] => S754_zero false
  | c0 :: l0 =>
      match (if Ascii.eqb c0 "0" then head l0 ≫= radix_of else None) with
      | Some base => read_radix base (tail l0)
      | None =>
          let '(s, l') := read_sign l in
          signed s (read_unsigned_decimal l')
      end
  end.

(** A string with a character outside ASCII left after trimming is no
    numeric literal. *)
Definition Number (s : string) : number :=
  match ascii_of_code_points (trim (code_points (list_ascii_of_string s))) with
  | Some l => read_numeric_literal l
  | None => NaN
  end.

(** *** The value of a number input

    The value that an input element of type number hands over is the empty
    string or a valid floating-point number of the HTML standard (the value
    sanitization algorithm sets any other value to the empty string): an
    optional minus sign; digits, a point followed by digits, or both in
    that order; and optionally an exponent, e or E with an optional sign
    and digits. *)

Definition is_digit (c : ascii) : bool :=
  let n := Z.of_nat (nat_of_ascii c) in (48 <=? n) && (n <=? 57).

(** The length of a maximal run of ASCII digits and the rest of the
    input. *)
Fixpoint skip_digits (l : list ascii) : nat * list ascii :=
  match l with
  | c :: l' =>
      if is_digit c
      then let '(n, rest) := skip_digits l' in (S n, rest)
      else (O, l)
  | [] => (O, [])
  end.

Definition valid_exponent (l : list ascii) : bool :=
  match l with
  | [] => true
  | c :: l' =>
      (Ascii.eqb c "e" || Ascii.eqb c "E")
      && match skip_digits (snd (read_sign l')) with
         | (S _, []) => true
         | _ => false
         end
  end.

(** The part after the sign. *)
Definition valid_unsigned (l : list ascii) : bool :=
  let '(ni, l1) := skip_digits l in
  match after_point l1 with
  | Some l2 =>
      let '(nf, l3) := skip_digits l2 in
      match nf with
      | O => false
      | S _ => valid_exponent l3
      end
  | None =>
      match ni with
      | O => false
      | S _ => valid_exponent l1
      end
  end.

Definition valid_floating_point_number (s : string) : bool :=
  match list_ascii_of_string s with
  | c :: l' => if Ascii.eqb c "-" then valid_unsigned l'
               else valid_unsigned (c :: l')
  | [] => false
  end.

Definition number_input_value (s : string) : bool :=
  String.eqb s "" || valid_floating_point_number s.


(** *** Values *)

(** The values the client reads from attribute bags: JSON values plus
    [undefined].  An object is a finite map from property names to
    values. *)
#[warnings="-register-all"]
Inductive JsVal :=
| JUndefined
| JNull
| JBool (b : bool)
| JNum (n : number)
| JStr (s : string)
| JObj (o : gmap string JsVal).

(** ToBoolean. *)
Definition truthy (v : JsVal) : bool :=
  match v with
  | JUndefined | JNull => false
  | JBool b => b
  | JNum n => negb (is_zero n || is_nan n)
  | JStr s => negb (String.eqb s "")
  | JObj _ => true
  end.

(** Neither an object nor any other value: [undefined] or [null]. *)
Definition nullish (v : JsVal) : Prop := v = JUndefined \/ v = JNull.

(** [o[k]] on an attribute bag: a missing key reads as [undefined]. *)
Definition prop (o : gmap string JsVal) (k : string) : JsVal :=
  default JUndefined (o !! k).

(** [v?.k]: [undefined] on null and undefined; primitives have none of the
    properties the client reads. *)
Definition opt_prop (v : JsVal) (k : string) : JsVal :=
  match v with
  | JObj o => prop o k
  | _ => JUndefined
  end.

(** [v === "literal"]. *)
Definition strict_eq_str (v : JsVal) (s : string) : bool :=
  match v with
  | JStr t => String.eqb t s
  | _ => false
  end.

(** [s] as a condition: the empty string is falsy. *)
Definition truthy_str (s : string) : bool := negb (String.eqb s "").

End JS.

Import JS.

(** ** types/trace.ts *)

Module Types.

Record Span := {
  span_id : string;
  parent_id : option string;          (* string | null *)
  name : string;
  start_time : string;
  end_time : string;
  attributes : gmap string JsVal;     (* Record<string, any> *)
}.

Record Feedback := {
  rating : option number;
  comment : option string;
  tags : option (list string);
  timestamp : option string;
  metadata : option (gmap string JsVal);
}.

(** The attribute bag of a trace is the field [attributes] of the source;
    it is renamed because a Span has a field of that name too. *)
Record Trace := {
  trace_id : string;
  created_at : string;
  feedbacks : list Feedback;
  trace_attributes : gmap string JsVal;
  spans : list Span;
}.

Record Episode := {
  episode_id : string;
  traces : list Trace;
}.

End Types.

Import Types.

(** ** components/utils/spanUtils.ts *)

Module SpanUtils.

Definition spanGetType (span : Span) : JsVal :=
  prop (attributes span) "tracebrain.span.type".

Definition spanGetToolName (span : Span) : JsVal :=
  prop (attributes span) "tracebrain.tool.name".

Definition spanHasError (span : Span) : bool :=
  strict_eq_str (prop (attributes span) "otel.status_code") "ERROR".

Definition spanGetUsage (span : Span) : JsVal :=
  prop (attributes span) "tracebrain.usage".

Definition spanGetInput (span : Span) : JsVal :=
  let type := spanGetType span in
  if strict_eq_str type "llm_inference"
  then prop (attributes span) "tracebrain.llm.new_content"
  else prop (attributes span) "tracebrain.tool.input".

Definition spanGetOutput (span : Span) : JsVal :=
  let type := spanGetType span in
  if strict_eq_str type "llm_inference"
  then prop (attributes span) "tracebrain.llm.completion"
  else prop (attributes span) "tracebrain.tool.output".

Definition spanGetSystemPrompt (span : Span) : JsVal :=
  prop (attributes span) "system_prompt".

(** The keys the three accessors of interest read. *)
Definition well_known_keys : list string :=
  [ "tracebrain.span.type";
    "tracebrain.llm.new_content"; "tracebrain.tool.input";
    "tracebrain.llm.completion"; "tracebrain.tool.output" ].

(** The enumerated span types of the attribute schema. *)
Inductive SpanType := user_request | llm_inference | tool_execution.

Definition span_type_name (t : SpanType) : string :=
  match t with
  | user_request => "user_request"
  | llm_inference => "llm_inference"
  | tool_execution => "tool_execution"
  end.

End SpanUtils.

(** ** components/utils/traceUtils.ts *)

Module TraceUtils.

Definition traceGetEpisodeId (trace : Trace) : JsVal :=
  prop (trace_attributes trace) "tracebrain.episode.id".

Definition traceGetStatus (trace : Trace) : JsVal :=
  prop (trace_attributes trace) "tracebrain.trace.status".

Definition traceGetPriority (trace : Trace) : JsVal :=
  prop (trace_attributes trace) "tracebrain.trace.priority".

Definition traceGetEvaluation (trace : Trace) : JsVal :=
  prop (trace_attributes trace) "tracebrain.ai_evaluation".

(** [null] is [None]. *)
Definition traceGetLatestFeedback (trace : Trace) : option Feedback :=
  match feedbacks trace with
  | [] => None
  | f :: _ => Some f
  end.

End TraceUtils.

(** ** TraceStore, feedback ledger *)

Module TraceStore.

(** Modelled from the spec: addFeedback is part of the server, which is not
    among the sources.  The specification says that it "always appends; it
    never mutates or removes prior entries", and that after n calls the
    first n-1 entries of [feedbacks] are unchanged: the new entry is the
    last one. *)
Definition addFeedback (trace : Trace) (feedback : Feedback) : Trace :=
  {| trace_id := trace_id trace;
     created_at := created_at trace;
     feedbacks := feedbacks trace ++ [feedback];
     trace_attributes := trace_attributes trace;
     spans := spans trace |}.

(** The most recently appended entry of a sequence kept in append order. *)
Definition most_recent (fs : list Feedback) : option Feedback := last fs.

End TraceStore.

(** ** components/shared/TraceRows.tsx and EpisodesTable.tsx *)

(** The props a row hands to its confidence indicator. *)
Module Indicator.

Record Props := {
  confidence : JsVal;
  status : JsVal;
  isAnalyzing : bool;
}.

End Indicator.

Module TraceRows.

Definition TraceRow (trace : Trace) : Indicator.Props :=
  let evaluation := TraceUtils.traceGetEvaluation trace in
  let confidence := opt_prop evaluation "confidence" in
  let suggestion_status := opt_prop evaluation "status" in
  let isAnalyzing := negb (truthy evaluation) in
  {| Indicator.confidence := confidence;
     Indicator.status := suggestion_status;
     Indicator.isAnalyzing := isAnalyzing |}.

End TraceRows.

Module EpisodeUtils.

(** Modelled from the spec: the confidences of the traces that "carry an
    evaluation", the only ones an episode-level aggregate averages over; a
    block without a numeric confidence yields NaN. *)
Definition evaluated_confidences (ts : list Trace) : list number :=
  omap (fun t =>
          let evaluation := TraceUtils.traceGetEvaluation t in
          if truthy evaluation
          then Some (match opt_prop evaluation "confidence" with
                     | JNum c => c
                     | _ => NaN
                     end)
          else None) ts.

(** Modelled from the spec: episodeGetAverageConfidence lives in
    components/utils/episodeUtils.ts, which is not among the sources.  The
    specification says that episode-level aggregates "average only over
    traces that carry an evaluation; an episode with zero evaluated traces
    reports no data, not zero"; no data is [undefined], which EpisodeRow
    tests for. *)
Definition episodeGetAverageConfidence (episode : Episode) : JsVal :=
  match evaluated_confidences (traces episode) with
  | [] => JUndefined
  | cs => JNum (div (foldl add (S754_zero false) cs)
                    (of_Z (Z.of_nat (List.length cs))))
  end.

End EpisodeUtils.

Module EpisodesTable.

(** [avgConfidence === undefined]. *)
Definition is_undefined (v : JsVal) : bool :=
  match v with JUndefined => true | _ => false end.

(** EpisodeRow passes no status prop. *)
Definition EpisodeRow (episode : Episode) : Indicator.Props :=
  let avgConfidence := EpisodeUtils.episodeGetAverageConfidence episode in
  {| Indicator.confidence := avgConfidence;
     Indicator.status := JUndefined;
     Indicator.isAnalyzing := is_undefined avgConfidence |}.

End EpisodesTable.

(** ** Severity colours of the two confidence bars *)

Inductive Severity := success | warning | error.

Module ConfidenceIndicator.

(** components/dashboard/ConfidenceIndicator.tsx:
    [confidence < 0.2 ? "error" : confidence < 0.8 ? "warning" : "success"] *)
Definition progressColor (confidence : number) : Severity :=
  if lt confidence (decimal 2 1) then error
  else if lt confidence (decimal 8 1) then warning
  else success.

End ConfidenceIndicator.

Module AIEvaluation.

(** components/trace/AIEvaluation.tsx, the bar's [bgcolor]:
    success.main, warning.main or error.main. *)
Definition bgcolor (confidence : number) : Severity :=
  if ge confidence (decimal 8 1) then success
  else if ge confidence (decimal 5 1) then warning
  else error.

(** The five stars of the rating: [star <= evaluation.rating] tells the
    filled ones. *)
Definition stars (rating : number) : list bool :=
  map (fun star => le (of_Z star) rating) [1; 2; 3; 4; 5].

End AIEvaluation.

(** The severities in the order error, warning, success. *)
Definition severity_rank (s : Severity) : nat :=
  match s with
  | error => 0
  | warning => 1
  | success => 2
  end.

(** ** Parent chains

    Both the trace visualizer and the reconstruction engine climb the
    parent links of a span.  [look] resolves an id to its span and [link]
    reads the parent reference of a span. *)

Section ParentChain.

Variable look : string -> option Span.
Variable link : Span -> option string.

(** [p] is the parent reference of the span that [id] resolves to. *)
Definition parent_of (id p : string) : Prop :=
  exists s, look id = Some s /\ link s = Some p.

(** [a] is a proper ancestor of [id]. *)
Inductive ancestor : string -> string -> Prop :=
| anc_parent id p : parent_of id p -> ancestor id p
| anc_up id p a : parent_of id p -> ancestor p a -> ancestor id a.

(** No parent chain revisits a node. *)
Definition acyclic : Prop := forall id, ~ ancestor id id.

(** Every parent reference resolves to a span. *)
Definition resolved : Prop :=
  forall id p, parent_of id p -> is_Some (look p).

(** The forest invariant of the data model. *)
Definition forest : Prop := resolved /\ acyclic.

(** [path id l]: [l] lists the proper ancestors of [id], nearest first, up
    to and including the root. *)
Inductive path : string -> list string -> Prop :=
| path_root id s : look id = Some s -> link s = None -> path id []
| path_step id p l : parent_of id p -> path p l -> path id (p :: l).

(** The proper ancestors of [id], nearest first, found by climbing at most
    [fuel] links; [None] when the fuel does not reach the end of the chain. *)
Fixpoint climb (fuel : nat) (id : string) : option (list string) :=
  match look id with
  | None => Some []
  | Some s =>
      match link s with
      | None => Some []
      | Some p =>
          match fuel with
          | O => None
          | S fuel' => cons p <$> climb fuel' p
          end
      end
  end.

(** The parent chain of [id] comes back to one of its spans: [id] or one
    of its ancestors is its own ancestor. *)
Definition on_cycle (id : string) : Prop :=
  exists a, (a = id \/ ancestor id a) /\ ancestor a a.

(** A decision procedure for the forest invariant over the ids [ids]. *)
Definition forest_check (ids : list string) : bool :=
  forallb (fun id =>
             match climb (List.length ids) id with
             | Some l => forallb (fun p => bool_decide (is_Some (look p))) l
             | None => false
             end) ids.

End ParentChain.

(** ** components/trace/TraceVisualizer.tsx *)

Module TraceVisualizer.

(** [allSpans.find((s) => s.span_id === id)] *)
Definition find_span (allSpans : list Span) (id : string) : option Span :=
  List.find (fun s => String.eqb (span_id s) id) allSpans.

(** The loop condition [current?.parent_id]: the parent reference when it
    is truthy, that is neither null nor the empty string. *)
Definition truthy_parent (current : Span) : option string :=
  match parent_id current with
  | Some p => if truthy_str p then Some p else None
  | None => None
  end.

(** [while (current?.parent_id) { nodesToExpand.add(current.parent_id);
    current = allSpans.find(...) }]; [None] when the loop has not ended
    within [fuel] iterations. *)
Fixpoint expand_loop (fuel : nat) (allSpans : list Span)
  (current : option Span) (nodesToExpand : gset string)
  : option (gset string) :=
  match current ≫= truthy_parent with
  | None => Some nodesToExpand
  | Some p =>
      match fuel with
      | O => None
      | S fuel' =>
          expand_loop fuel' allSpans (find_span allSpans p)
                      ({[ p ]} ∪ nodesToExpand)
      end
  end.

(** The block guarded by [if (preselectedSpan)]; [searchParams.get] yields
    a string or null. *)
Definition expandAncestors (fuel : nat) (allSpans : list Span)
  (preselectedSpan : option string) (nodesToExpand : gset string)
  : option (gset string) :=
  match preselectedSpan with
  | Some id =>
      if truthy_str id
      then expand_loop fuel allSpans (find_span allSpans id) nodesToExpand
      else Some nodesToExpand
  | None => Some nodesToExpand
  end.

(** The effect: the new value of [expandedNodes]. *)
Definition expandEffect (fuel : nat) (traces : list Trace)
  (preselectedSpan : option string) (expandedNodes : gset string)
  : option (gset string) :=
  match traces with
  | [] => Some expandedNodes
  | _ =>
      let nodesToExpand : gset string := list_to_set (map trace_id traces) in
      let allSpans := flat_map spans traces in
      expandAncestors fuel allSpans preselectedSpan nodesToExpand
  end.

(** The ids under which some span of the list is found. *)
Definition span_ids (allSpans : list Span) : list string :=
  map span_id allSpans.

(** [toggleExpand]: the new value of [expandedNodes]. *)
Definition toggleExpand (expandedNodes : gset string) (id : string)
  : gset string :=
  if bool_decide (id ∈ expandedNodes)
  then expandedNodes ∖ {[ id ]}
  else expandedNodes ∪ {[ id ]}.

Inductive SelectedType := trace_type | span_type.

(** The two pieces of selection state. *)
Record Selection := {
  selectedId : option string;          (* string | null *)
  selectedType : SelectedType;
}.

(** [a || b] on an id that may be null: the empty string is falsy. *)
Definition truthy_id (id : option string) : option string :=
  match id with
  | Some s => if truthy_str s then Some s else None
  | None => None
  end.

(** The initial values of [selectedId] and [selectedType]. *)
Definition initialSelection (traces : list Trace)
  (preselectedSpan : option string) : Selection :=
  {| selectedId :=
       match truthy_id preselectedSpan with
       | Some s => Some s
       | None =>
           match traces with
           | t :: _ => Some (trace_id t)
           | [] => None
           end
       end;
     selectedType :=
       match truthy_id preselectedSpan with
       | Some _ => span_type
       | None => trace_type
       end |}.

Definition handleSelect (id : string) (type : SelectedType) : Selection :=
  {| selectedId := Some id; selectedType := type |}.

(** [allSpans.find((s) => s.span_id === selectedId) || null]; no span has
    the id null. *)
Definition selectedSpan (traces : list Trace) (sel : Selection)
  : option Span :=
  match selectedType sel with
  | span_type =>
      match selectedId sel with
      | Some id => find_span (flat_map spans traces) id
      | None => None
      end
  | trace_type => None
  end.

Definition selectedTrace (traces : list Trace) (sel : Selection)
  : option Trace :=
  match selectedType sel with
  | trace_type =>
      match selectedId sel with
      | Some id => List.find (fun t => String.eqb (trace_id t) id) traces
      | None => None
      end
  | span_type => None
  end.

End TraceVisualizer.

(** ** components/trace/TraceDetails.tsx *)

Module TraceDetails.

(** What parseLLMContent yields when its result is truthy. *)
Record Parsed := {
  subtitle : string;
  content : JsVal;
}.

(** The children of the details pane: a SpanContent, a TokenUsageBar, or
    the text React renders for a number. *)
Inductive Child :=
| SpanContent (title subtitle : string) (content : JsVal) (hasError : bool)
| TokenUsageBar (usage : JsVal) (hasError : bool)
| NumberText (n : number).

Inductive View :=
| TraceView (trace_id : string) (evaluation : option JsVal)
| Placeholder
| SpanView (children : list Child).

(** [{x && element}]: the element when x is truthy; of the falsy values,
    React renders a number (0 or NaN) as text and the others not at all. *)
Definition and_render {A : Type} (text : number -> A) (x : JsVal)
  (element : list A) : list A :=
  if truthy x then element
  else match x with
       | JNum n => [text n]
       | _ => []
       end.

Section Details.

(** parseLLMContent, of ./utils, is not among the sources; [None] stands
    for a falsy result. *)
Variable parseLLMContent : JsVal -> option Parsed.

(** The AI evaluation panel of a trace: the block handed to AIEvaluation
    when it is truthy. *)
Definition evaluationPanel (trace : Trace) : option JsVal :=
  let evaluation := TraceUtils.traceGetEvaluation trace in
  if truthy evaluation then Some evaluation else None.

Definition spanChildren (span : Span) : list Child :=
  let spanType := SpanUtils.spanGetType span in
  let toolName := SpanUtils.spanGetToolName span in
  let hasError := SpanUtils.spanHasError span in
  let usage := SpanUtils.spanGetUsage span in
  let input := SpanUtils.spanGetInput span in
  let output := SpanUtils.spanGetOutput span in
  let systemPrompt := SpanUtils.spanGetSystemPrompt span in
  [SpanContent "System Prompt" "System" systemPrompt hasError]
  ++ (if strict_eq_str spanType "tool_execution"
      then [SpanContent "Tool" "Tool" toolName hasError;
            SpanContent "Input" "AI" input hasError;
            SpanContent "Output" "Tool" output hasError]
      else [])
  ++ (if strict_eq_str spanType "llm_inference"
      then and_render NumberText input
             match parseLLMContent input with
             | Some parsed =>
                 [SpanContent "Input" (subtitle parsed) (content parsed)
                    hasError]
             | None => []
             end
           ++ and_render NumberText output
                [SpanContent "Output" "AI" output hasError]
      else [])
  ++ and_render NumberText usage [TokenUsageBar usage hasError].

(** The pane for the props [span] and [trace]; null is [None]. *)
Definition TraceDetails (span : option Span) (trace : option Trace) : View :=
  match trace with
  | Some t => TraceView (trace_id t) (evaluationPanel t)
  | None =>
      match span with
      | None => Placeholder
      | Some sp => SpanView (spanChildren sp)
      end
  end.

End Details.

(** The titles of the SpanContent children, in order. *)
Definition titles (children : list Child) : list string :=
  omap (fun c => match c with
                 | SpanContent title _ _ _ => Some title
                 | _ => None
                 end) children.

End TraceDetails.

(** ** ReconstructionEngine *)

Module ReconstructionEngine.

(** Modelled from the spec: the delta content of a span is its
    [new_content] attribute, "only the incremental text produced by this
    node"; a span without one contributes nothing. *)
Definition delta (s : Span) : string :=
  match attributes s !! "tracebrain.llm.new_content" with
  | Some (JStr c) => c
  | _ => ""
  end.

(** Modelled from the spec: "build a forest keyed by span_id". *)
Definition build (spans : list Span) : gmap string Span :=
  list_to_map (map (fun s => (span_id s, s)) spans).

(** Modelled from the spec: the walk of reconstruct, from [id] up to its
    root, putting each delta in front of what the descendants
    contributed. *)
Fixpoint walk (fuel : nat) (nodes : gmap string Span) (id : string)
  (acc : string) : option string :=
  match fuel with
  | O => None
  | S fuel' =>
      match nodes !! id with
      | None => None
      | Some s =>
          let acc' := (delta s ++ acc)%string in
          match parent_id s with
          | None => Some acc'
          | Some p => walk fuel' nodes p acc'
          end
      end
  end.

(** Modelled from the spec: the reconstruction engine is part of the
    server, which is not among the sources.  The specification says that
    reconstruct(span_id) "walks the ancestor chain from the given span up to
    its root, collecting each node's own delta content in root-to-node
    order, and concatenates them in that order (root's delta first, the
    target span's delta last). A root with no delta contributes nothing."
    The result is [None] for an id that is not in the forest and for a
    chain that is dangling or cyclic, which validation rejects. *)
Definition reconstruct (spans : list Span) (span_id : string)
  : option string :=
  let nodes := build spans in
  walk (size nodes) nodes span_id "".

(** The span that an id names in the forest, and the ids of the forest. *)
Definition find_node (spans : list Span) (id : string) : option Span :=
  build spans !! id.

Definition node_ids (spans : list Span) : list string :=
  (map_to_list (build spans)).*1.

End ReconstructionEngine.

(** ** The Date built-in

    A Date holds a time value: milliseconds since the epoch, UTC.  The
    calendar functions are those of the ECMAScript specification. *)

Module JSDate.

Definition msPerDay : Z := 86400000.

Definition Day (t : Z) : Z := t / msPerDay.
Definition TimeWithinDay (t : Z) : Z := t mod msPerDay.

Definition is_leap (y : Z) : bool :=
  ((y mod 4 =? 0) && negb (y mod 100 =? 0)) || (y mod 400 =? 0).

Definition DaysInYear (y : Z) : Z := if is_leap y then 366 else 365.

Definition DayFromYear (y : Z) : Z :=
  365 * (y - 1970) + (y - 1969) / 4 - (y - 1901) / 100 + (y - 1601) / 400.

(** The largest year whose first day is not after day [d]: an estimate from
    the mean length of a year, corrected by at most one year. *)
Definition YearFromDay (d : Z) : Z :=
  let y := 1970 + (d * 400) / 146097 in
  if d <? DayFromYear y then y - 1
  else if DayFromYear (y + 1) <=? d then y + 1
  else y.

Definition YearFromTime (t : Z) : Z := YearFromDay (Day t).

Definition DayWithinYear (t : Z) : Z := Day t - DayFromYear (YearFromTime t).

(** The number of days of the year before month [m] (0 = January). *)
Definition days_before_month (leap : bool) (m : Z) : Z :=
  let l := if leap then 1 else 0 in
  match m with
  | 0 => 0
  | 1 => 31
  | 2 => 59 + l
  | 3 => 90 + l
  | 4 => 120 + l
  | 5 => 151 + l
  | 6 => 181 + l
  | 7 => 212 + l
  | 8 => 243 + l
  | 9 => 273 + l
  | 10 => 304 + l
  | _ => 334 + l
  end.

Definition month_of_day (leap : bool) (d : Z) : Z :=
  if d <? days_before_month leap 1 then 0
  else if d <? days_before_month leap 2 then 1
  else if d <? days_before_month leap 3 then 2
  else if d <? days_before_month leap 4 then 3
  else if d <? days_before_month leap 5 then 4
  else if d <? days_before_month leap 6 then 5
  else if d <? days_before_month leap 7 then 6
  else if d <? days_before_month leap 8 then 7
  else if d <? days_before_month leap 9 then 8
  else if d <? days_before_month leap 10 then 9
  else if d <? days_before_month leap 11 then 10
  else 11.

Definition MonthFromTime (t : Z) : Z :=
  month_of_day (is_leap (YearFromTime t)) (DayWithinYear t).

Definition DateFromTime (t : Z) : Z :=
  DayWithinYear t
  - days_before_month (is_leap (YearFromTime t)) (MonthFromTime t) + 1.

(** The day number of date [date] of month [month] of [year]; months and
    dates outside their range carry over. *)
Definition MakeDay (year month date : Z) : Z :=
  let ym := year + month / 12 in
  let mn := month mod 12 in
  DayFromYear ym + days_before_month (is_leap ym) mn + date - 1.

Definition MakeDate (day time : Z) : Z := day * msPerDay + time.

Definition HourFromTime (t : Z) : Z := (t / 3600000) mod 24.
Definition MinFromTime (t : Z) : Z := (t / 60000) mod 60.
Definition SecFromTime (t : Z) : Z := (t / 1000) mod 60.
Definition msFromTime (t : Z) : Z := t mod 1000.

(** The local time zone: its offset from UTC in milliseconds, at a UTC
    time value and at a local time value. *)
Record TimeZone := {
  offsetAtUTC : Z -> Z;
  offsetAtLocal : Z -> Z;
}.

Definition LocalTime (tz : TimeZone) (t : Z) : Z := t + offsetAtUTC tz t.
Definition UTC (tz : TimeZone) (t : Z) : Z := t - offsetAtLocal tz t.

(** [d.getDate()] *)
Definition getDate (tz : TimeZone) (t : Z) : Z :=
  DateFromTime (LocalTime tz t).

(** [d.setDate(date)]: the new time value of d. *)
Definition setDate (tz : TimeZone) (t : Z) (date : Z) : Z :=
  let l := LocalTime tz t in
  UTC tz (MakeDate (MakeDay (YearFromTime l) (MonthFromTime l) date)
                   (TimeWithinDay l)).

Definition digit_char (d : Z) : ascii := ascii_of_nat (48 + Z.to_nat d).

(** The last [k] decimal digits of [n], most significant first. *)
Fixpoint pad (k : nat) (n : Z) : string :=
  match k with
  | O => ""
  | S k' => (pad k' (n / 10) ++ String (digit_char (n mod 10)) "")%string
  end.

Definition year_string (y : Z) : string :=
  let sign := if y <? 0 then "-" else "+" in
  if (0 <=? y) && (y <=? 9999) then pad 4 y
  else (sign ++ pad 6 (Z.abs y))%string.

(** [d.toISOString()]: YYYY-MM-DDTHH:mm:ss.sssZ, in UTC. *)
Definition toISOString (t : Z) : string :=
  let month := MonthFromTime t + 1 in
  (year_string (YearFromTime t) ++ "-" ++ pad 2 month
   ++ "-" ++ pad 2 (DateFromTime t)
   ++ "T" ++ pad 2 (HourFromTime t) ++ ":" ++ pad 2 (MinFromTime t)
   ++ ":" ++ pad 2 (SecFromTime t) ++ "." ++ pad 3 (msFromTime t)
   ++ "Z")%string.

(** YYYY-MM-DD, for a year of four digits. *)
Definition date_string (y m d : Z) : string :=
  (pad 4 y ++ "-" ++ pad 2 m ++ "-" ++ pad 2 d)%string.

(** [s.slice(0, 10)] *)
Definition slice_0_10 (s : string) : string := String.substring 0 10 s.

Definition read_fixed (l : list ascii) : option Z :=
  match read_digits 10 l 0 0 with
  | (v, n, []) => if (n =? List.length l)%nat then Some v else None
  | _ => None
  end.

Definition days_in_month (leap : bool) (m : Z) : Z :=
  if m =? 11 then 31
  else days_before_month leap (m + 1) - days_before_month leap m.

(** [new Date(s).getTime()] for a string in the date-only form YYYY-MM-DD,
    which is read as UTC midnight: the strings that the panel itself stores
    are of this form (the first ten characters of toISOString, or the value
    of a date input).  A day up to 31 that the month does not have is
    carried over into the next month, as V8 reads it; the standard leaves
    such a string to the engine.  [None] is NaN, the time value of an
    invalid date, for a string of this form; a string in another form is
    not read here, and the panel takes the reading of the engine as a
    parameter. *)
Definition parse (s : string) : option Z :=
  match list_ascii_of_string s with
  | [y1; y2; y3; y4; "-"%char; m1; m2; "-"%char; d1; d2] =>
      match read_fixed [y1; y2; y3; y4], read_fixed [m1; m2],
            read_fixed [d1; d2] with
      | Some y, Some m, Some d =>
          if (1 <=? m) && (m <=? 12) && (1 <=? d) && (d <=? 31)
          then Some (MakeDate (MakeDay y (m - 1) d) 0)
          else None
      | _, _, _ => None
      end
  | _ => None
  end.

End JSDate.

(** ** components/explorer/types.ts *)

Module ExplorerTypes.

Record TraceFilters := {
  status : string;
  errorType : string;
  minRating : option number;          (* number | null *)
  minConfidence : option number;
  maxConfidence : option number;
  startTime : string;
  endTime : string;
}.

Record EpisodeFilters := {
  minConfidenceLt : option number;
}.

(** [Partial<TraceFilters>]: the fields an object literal mentions. *)
Record TraceFiltersPatch := {
  p_status : option string;
  p_errorType : option string;
  p_minRating : option (option number);
  p_minConfidence : option (option number);
  p_maxConfidence : option (option number);
  p_startTime : option string;
  p_endTime : option string;
}.

(** The empty object literal. *)
Definition no_patch : TraceFiltersPatch :=
  {| p_status := None; p_errorType := None; p_minRating := None;
     p_minConfidence := None; p_maxConfidence := None;
     p_startTime := None; p_endTime := None |}.

(** [{ ...filters, ...patch }] *)
Definition spread (filters : TraceFilters) (patch : TraceFiltersPatch)
  : TraceFilters :=
  {| status := default (status filters) (p_status patch);
     errorType := default (errorType filters) (p_errorType patch);
     minRating := default (minRating filters) (p_minRating patch);
     minConfidence := default (minConfidence filters) (p_minConfidence patch);
     maxConfidence := default (maxConfidence filters) (p_maxConfidence patch);
     startTime := default (startTime filters) (p_startTime patch);
     endTime := default (endTime filters) (p_endTime patch) |}.

End ExplorerTypes.

Import ExplorerTypes.

(** ** components/explorer/FiltersPanel.tsx *)

Module FiltersPanel.

Definition DEFAULT_TRACE_FILTERS : TraceFilters :=
  {| status := "";
     errorType := "";
     minRating := None;
     minConfidence := None;
     maxConfidence := None;
     startTime := "";
     endTime := "" |}.


End FiltersPanel.

(** ** components/explorer/TraceFiltersPanel.tsx

    A handler is modelled by the filter record it hands to [onChange]; the
    text typed into the two confidence boxes ([minRaw], [maxRaw]) is local
    to the panel and not part of the filters.  The two boxes are inputs of
    type number, so the text they hand over is the value of a number input
    ([number_input_value]). *)

Module TraceFiltersPanel.

Definition DATE_PRESETS : list (string * Z) :=
  [ ("Today", 0);
    ("Yesterday", 1);
    ("Last week", 7);
    ("Last month", 28);
    ("Last 3 months", 90);
    ("Last 12 months", 365) ].

(** What the date chip shows: its title, the label of a preset, or two
    dates. *)
Inductive DateLabel :=
| TitleLabel
| PresetLabel (label : string)
| RangeLabel (from to : option string).

Section Panel.

(** [new Date(s).getTime()]: a time value, which is an integer of magnitude
    at most 8.64e15, or NaN, which is [None].  What a string outside the
    date-time string format is read as is left to the engine, so the
    reading is a parameter of the panel; [JSDate.parse] is the reading of
    the date-only strings. *)
Variable getTime : string -> option Z.

Variable filters : TraceFilters.

(** [const set = (patch) => onChange({ ...filters, ...patch })] *)
Definition set (patch : TraceFiltersPatch) : TraceFilters :=
  spread filters patch.

(** [Math.min(1, Math.max(0, Math.round(Number(raw) * 100) / 100))] *)
Definition clamped (raw : string) : number :=
  Math_min (of_Z 1)
    (Math_max (of_Z 0)
       (div (Math_round (mul (Number raw) (of_Z 100))) (of_Z 100))).

Definition commitMin (raw : string) : TraceFilters :=
  if String.eqb raw ""
  then set {| p_status := None; p_errorType := None; p_minRating := None;
              p_minConfidence := Some None; p_maxConfidence := None;
              p_startTime := None; p_endTime := None |}
  else set {| p_status := None; p_errorType := None; p_minRating := None;
              p_minConfidence := Some (Some (clamped raw));
              p_maxConfidence := None;
              p_startTime := None; p_endTime := None |}.

Definition commitMax (raw : string) : TraceFilters :=
  if String.eqb raw ""
  then set {| p_status := None; p_errorType := None; p_minRating := None;
              p_minConfidence := None; p_maxConfidence := Some None;
              p_startTime := None; p_endTime := None |}
  else set {| p_status := None; p_errorType := None; p_minRating := None;
              p_minConfidence := None;
              p_maxConfidence := Some (Some (clamped raw));
              p_startTime := None; p_endTime := None |}.

(** The [active] prop of the five chips. *)
Definition statusActive : bool := truthy_str (status filters).
Definition errorTypeActive : bool := truthy_str (errorType filters).
Definition minRatingActive : bool := bool_decide (minRating filters <> None).
Definition confActive : bool :=
  bool_decide (minConfidence filters <> None)
  || bool_decide (maxConfidence filters <> None).
Definition dateActive : bool :=
  truthy_str (startTime filters) || truthy_str (endTime filters).

(** The condition under which the "Clear all" button is shown. *)
Definition anyActive : bool :=
  statusActive || errorTypeActive || minRatingActive || confActive
  || dateActive.

(** [Math.round((end.getTime() - start.getTime()) / (1000*60*60*24))].
    The time value of an invalid date is NaN.  Valid time values are
    integers of magnitude at most 8.64e15, which binary64 holds exactly, so
    the difference of two of them is their difference as integers, rounded
    once. *)
Definition diffDays : number :=
  let difference :=
    match getTime (endTime filters), getTime (startTime filters) with
    | Some e, Some s => of_Z (e - s)
    | _, _ => NaN
    end in
  Math_round (div difference (of_Z (1000 * 60 * 60 * 24))).

(** [null] is [None]. *)
Definition activeDatePreset : option string :=
  if negb (truthy_str (startTime filters))
     || negb (truthy_str (endTime filters))
  then None
  else
    fst <$> List.find (fun p => num_eq (of_Z (snd p)) diffDays) DATE_PRESETS.

(** [applyPreset(days)], in time zone [tz]; [now] and [now'] are the values
    of the clock at the first and at the second [new Date()] (the branch
    for today reads the clock once). *)
Definition applyPreset (tz : JSDate.TimeZone) (now now' : Z) (days : Z)
  : TraceFilters :=
  if days =? 0 then
    let today := JSDate.slice_0_10 (JSDate.toISOString now) in
    set {| p_status := None; p_errorType := None; p_minRating := None;
           p_minConfidence := None; p_maxConfidence := None;
           p_startTime := Some today; p_endTime := Some today |}
  else
    let end_ := now in
    let start := now' in
    let start := JSDate.setDate tz start (JSDate.getDate tz end_ - days) in
    set {| p_status := None; p_errorType := None; p_minRating := None;
           p_minConfidence := None; p_maxConfidence := None;
           p_startTime := Some (JSDate.slice_0_10 (JSDate.toISOString start));
           p_endTime := Some (JSDate.slice_0_10 (JSDate.toISOString end_)) |}.

(** The [onClear] handlers of the five chips. *)
Definition clearStatus : TraceFilters :=
  set {| p_status := Some ""; p_errorType := None; p_minRating := None;
         p_minConfidence := None; p_maxConfidence := None;
         p_startTime := None; p_endTime := None |}.

Definition clearErrorType : TraceFilters :=
  set {| p_status := None; p_errorType := Some ""; p_minRating := None;
         p_minConfidence := None; p_maxConfidence := None;
         p_startTime := None; p_endTime := None |}.

Definition clearMinRating : TraceFilters :=
  set {| p_status := None; p_errorType := None; p_minRating := Some None;
         p_minConfidence := None; p_maxConfidence := None;
         p_startTime := None; p_endTime := None |}.

Definition clearConfidence : TraceFilters :=
  set {| p_status := None; p_errorType := None; p_minRating := None;
         p_minConfidence := Some None; p_maxConfidence := Some None;
         p_startTime := None; p_endTime := None |}.

Definition clearDate : TraceFilters :=
  set {| p_status := None; p_errorType := None; p_minRating := None;
         p_minConfidence := None; p_maxConfidence := None;
         p_startTime := Some ""; p_endTime := Some "" |}.

(** The [onChange] handlers of the radio groups and of the date inputs. *)
Definition selectStatus (value : string) : TraceFilters :=
  set {| p_status := Some value; p_errorType := None; p_minRating := None;
         p_minConfidence := None; p_maxConfidence := None;
         p_startTime := None; p_endTime := None |}.

Definition selectErrorType (value : string) : TraceFilters :=
  set {| p_status := None; p_errorType := Some value; p_minRating := None;
         p_minConfidence := None; p_maxConfidence := None;
         p_startTime := None; p_endTime := None |}.

Definition selectMinRating (value : string) : TraceFilters :=
  set {| p_status := None; p_errorType := None;
         p_minRating :=
           Some (if truthy_str value then Some (Number value) else None);
         p_minConfidence := None; p_maxConfidence := None;
         p_startTime := None; p_endTime := None |}.

Definition changeFrom (value : string) : TraceFilters :=
  set {| p_status := None; p_errorType := None; p_minRating := None;
         p_minConfidence := None; p_maxConfidence := None;
         p_startTime := Some value; p_endTime := None |}.

Definition changeTo (value : string) : TraceFilters :=
  set {| p_status := None; p_errorType := None; p_minRating := None;
         p_minConfidence := None; p_maxConfidence := None;
         p_startTime := None; p_endTime := Some value |}.

(** The label of the date chip.  A date of the range is given by the
    string that is handed to [new Date] and then formatted with
    toLocaleDateString("en-GB", ...); [None] is the ellipsis. *)
Definition dateLabel : DateLabel :=
  if dateActive then
    match activeDatePreset with
    | Some label => PresetLabel label
    | None =>
        RangeLabel
          (if truthy_str (startTime filters)
           then Some (startTime filters) else None)
          (if truthy_str (endTime filters)
           then Some (startTime filters) else None)
    end
  else TitleLabel.

End Panel.

(** The "Clear all" button. *)
Definition clearAll : TraceFilters :=
  {| status := "";
     errorType := "";
     minRating := None;
     minConfidence := None;
     maxConfidence := None;
     startTime := "";
     endTime := "" |}.

End TraceFiltersPanel.

(** ** TraceStore, filtered listing *)

Module TraceQuery.

(** Modelled from the spec: list(filter, skip, limit) belongs to the
    TraceStore of the server, which is not among the sources.  The
    specification gives the vocabulary of a filter, "status (enumerated),
    error type (enumerated), minimum rating, confidence range [min, max],
    time range [start, end]", and says that filters "read from the
    attribute map".  How a filter that is present is tested against the
    attributes of a trace it leaves to the store: the seven tests, one for
    each field of the filter record, are given by the store. *)
Record Tests := {
  has_status : string -> Trace -> bool;
  has_error_type : string -> Trace -> bool;
  rating_at_least : number -> Trace -> bool;
  confidence_at_least : number -> Trace -> bool;
  confidence_at_most : number -> Trace -> bool;
  not_before : string -> Trace -> bool;
  not_after : string -> Trace -> bool;
}.

(** Modelled from the spec: "absence of a filter means "no constraint," not
    "match empty."".  A filter of the record is absent when it holds the
    empty string or null. *)
Definition constrain_string (test : string -> Trace -> bool)
  (filter : string) (t : Trace) : bool :=
  if truthy_str filter then test filter t else true.

Definition constrain_number (test : number -> Trace -> bool)
  (filter : option number) (t : Trace) : bool :=
  match filter with
  | Some bound => test bound t
  | None => true
  end.

(** Modelled from the spec: the filters are "composable, implicit AND". *)
Definition matches (T : Tests) (filter : TraceFilters) (t : Trace) : bool :=
  constrain_string (has_status T) (status filter) t
  && constrain_string (has_error_type T) (errorType filter) t
  && constrain_number (rating_at_least T) (minRating filter) t
  && constrain_number (confidence_at_least T) (minConfidence filter) t
  && constrain_number (confidence_at_most T) (maxConfidence filter) t
  && constrain_string (not_before T) (startTime filter) t
  && constrain_string (not_after T) (endTime filter) t.

(** Modelled from the spec: list(filter, skip, limit) yields (traces,
    total), where "skip/limit define an offset window" and total "reflects
    the unfiltered-by-pagination but filtered-by-predicate count".
    [traces] are the traces of the store in its order. *)
Definition list_traces (T : Tests) (filter : TraceFilters) (skip limit : nat)
  (traces : list Trace) : list Trace * nat :=
  let matching := List.filter (matches T filter) traces in
  (take limit (drop skip matching), List.length matching).

End TraceQuery.

(** ** components/explorer/EpisodeFiltersPanel.tsx *)

Module EpisodesFiltersPanel.

(** [const set = (patch) => onChange({ ...filters, ...patch })]: the
    record has one field. *)
Definition set (filters : EpisodeFilters) (patch : option (option number))
  : EpisodeFilters :=
  {| minConfidenceLt := default (minConfidenceLt filters) patch |}.

Definition commit (filters : EpisodeFilters) (value : string)
  : EpisodeFilters :=
  if String.eqb value "" then set filters (Some None)
  else
    let clamped :=
      Math_min (of_Z 1)
        (Math_max (of_Z 0)
           (div (Math_round (mul (Number value) (of_Z 100))) (of_Z 100))) in
    set filters (Some (Some clamped)).

(** The [onClear] handler of the chip, and the "Clear all" button. *)
Definition clear (filters : EpisodeFilters) : EpisodeFilters :=
  set filters (Some None).

Definition clearAll : EpisodeFilters := {| minConfidenceLt := None |}.

Definition confActive (filters : EpisodeFilters) : bool :=
  bool_decide (minConfidenceLt filters <> None).

End EpisodesFiltersPanel.

(** ** Root-to-target concatenation

    What the specification says reconstruct returns, over a store [look]:
    the deltas of the spans named by [ids], in that order, side by side. *)

Module Concatenation.

Definition delta_of (look : string -> option Span) (id : string) : string :=
  from_option ReconstructionEngine.delta "" (look id).

Definition concat_deltas (look : string -> option Span) (ids : list string)
  : string :=
  foldr (fun id acc => (delta_of look id ++ acc)%string) "" ids.

End Concatenation.

Import Concatenation.

(** ** Sample data *)

Module Samples.

Definition feedback_of (r : Z) (c : string) : Feedback :=
  {| rating := Some (of_Z r); comment := Some c; tags := None;
     timestamp := None; metadata := None |}.

Definition empty_trace : Trace :=
  {| trace_id := "T1"; created_at := "2026-01-01T00:00:00Z";
     feedbacks := []; trace_attributes := ∅; spans := [] |}.

Definition unevaluated_trace : Trace :=
  {| trace_id := "T1"; created_at := "2026-01-01T00:00:00Z";
     feedbacks := [];
     trace_attributes := {[ "tracebrain.trace.status" := JStr "running" ]};
     spans := [] |}.

Definition unevaluated_episode : Episode :=
  {| episode_id := "E1";
     traces := [unevaluated_trace; unevaluated_trace] |}.

Definition mk_span (id : string) (parent : option string)
  (attrs : gmap string JsVal) : Span :=
  {| span_id := id; parent_id := parent; name := id;
     start_time := "2026-01-01T00:00:00Z";
     end_time := "2026-01-01T00:00:01Z";
     attributes := attrs |}.

(** The scenario of the specification: s1 is a root, s2 its child, s3 the
    child of s2. *)
Definition scenario : list Span :=
  [ mk_span "s1" None {[ "tracebrain.span.type" := JStr "user_request" ]};
    mk_span "s2" (Some "s1")
      {[ "tracebrain.span.type" := JStr "llm_inference";
         "tracebrain.llm.new_content" := JStr "42" ]};
    mk_span "s3" (Some "s2")
      {[ "tracebrain.span.type" := JStr "tool_execution";
         "tracebrain.tool.name" := JStr "calculator" ]} ].

(** A span of an inference, with a vendor key besides the well-known
    ones. *)
Definition inference : Span :=
  mk_span "s2" (Some "s1")
    {[ "tracebrain.span.type" := JStr "llm_inference";
       "tracebrain.llm.new_content" := JStr "42";
       "tracebrain.llm.completion" := JStr "The answer is 42.";
       "vendor.region" := JStr "eu" ]}.

(** A root a with delta "Hello " and its child b with delta "World". *)
Definition hello : Span :=
  mk_span "a" None {[ "tracebrain.llm.new_content" := JStr "Hello " ]}.

Definition world : Span :=
  mk_span "b" (Some "a") {[ "tracebrain.llm.new_content" := JStr "World" ]}.

(** A root whose id is the empty string, and its child b. *)
Definition empty_id_root : list Span :=
  [ mk_span "" None ∅; mk_span "b" (Some "") ∅ ].

(** The clock of New York in the autumn of 2026: four hours behind UTC
    until 2026-11-01T06:00:00Z, when the clocks go back from 02:00 to 01:00
    local time, and five hours behind from then on. *)
Definition new_york : JSDate.TimeZone :=
  {| JSDate.offsetAtUTC t :=
       if t <? 1793512800000 then -14400000 else -18000000;
     JSDate.offsetAtLocal t :=
       if t <? 1793498400000 then -14400000 else -18000000 |}.

(** A zone at a constant offset from UTC. *)
Definition fixed_zone (offset : Z) : JSDate.TimeZone :=
  {| JSDate.offsetAtUTC _ := offset; JSDate.offsetAtLocal _ := offset |}.

(** 2026-11-03T00:30:00Z, which is 19:30 on 2 November in New York. *)
Definition monday_evening : Z := 1793665800000.

(** [span] with attribute [k] set to [v]. *)
Definition with_attribute (span : Span) (k : string) (v : JsVal) : Span :=
  {| span_id := span_id span; parent_id := parent_id span;
     name := name span; start_time := start_time span;
     end_time := end_time span;
     attributes := <[ k := v ]> (attributes span) |}.

(** A trace that holds the spans of the scenario and has been evaluated. *)
Definition scenario_trace : Trace :=
  {| trace_id := "T1"; created_at := "2026-01-01T00:00:00Z";
     feedbacks := [];
     trace_attributes :=
       {[ "tracebrain.ai_evaluation" :=
            JObj {[ "confidence" := JNum (decimal 9 1);
                    "status" := JStr "completed" ]} ]};
     spans := scenario |}.

(** Two spans that name each other as parent, and a child of one of
    them. *)
Definition loop_spans : list Span :=
  [ mk_span "p" (Some "q") ∅; mk_span "q" (Some "p") ∅;
    mk_span "c" (Some "p") ∅ ].

End Samples.

Import Samples.

(** ** Stated properties

    Properties that Part II refutes, as they are stated: two of the
    specification, and the invariant of a commit read over all strings
    rather than over the values of a number input. *)

Module Stated.

(** The two bars give every confidence in [0,1] the same severity. *)
Definition bars_agree_on_unit_interval : Prop :=
  forall c : number,
    le (of_Z 0) c = true -> le c (of_Z 1) = true ->
    ConfidenceIndicator.progressColor c = AIEvaluation.bgcolor c.

(** [c] lies within [0,1]. *)
Definition in_unit (c : number) : bool := le (of_Z 0) c && le c (of_Z 1).

(** Whatever string is committed to the min or to the max box, a value of
    a number input or not, the bound stored is null, for the empty string,
    or a number within [0,1]. *)
Definition commit_stores_null_or_unit : Prop :=
  forall (filters : TraceFilters) (raw : string),
    match minConfidence (TraceFiltersPanel.commitMin filters raw) with
    | None => raw = ""
    | Some c => in_unit c = true
    end
    /\ match maxConfidence (TraceFiltersPanel.commitMax filters raw) with
       | None => raw = ""
       | Some c => in_unit c = true
       end.

(** Every walk from a preselected span of a forest, in which a parent_id
    that is not null is a parent reference, ends and adds exactly the ids
    of the proper ancestors of the span. *)
Definition walk_adds_exactly_proper_ancestors : Prop :=
  forall (allSpans : list Span) (preselectedSpan : string)
         (nodes : gset string),
    forest (TraceVisualizer.find_span allSpans) parent_id ->
    exists (fuel : nat) (r : gset string),
      TraceVisualizer.expandAncestors fuel allSpans (Some preselectedSpan)
        nodes = Some r
      /\ forall a,
           a ∈ r
           <-> a ∈ nodes
               \/ ancestor (TraceVisualizer.find_span allSpans) parent_id
                    preselectedSpan a.

End Stated.

Import Stated.

(** * Part II: properties *)

(** ** The built-ins on known values *)

Section BuiltIns.

Import JSDate.

Example Number_values :
  Number "" = S754_zero false
  /\ Number "  42 " = of_Z 42
  /\ Number "-0" = S754_zero true
  /\ Number ".5" = decimal 5 1
  /\ Number "1e3" = of_Z 1000
  /\ Number "0x1F" = of_Z 31
  /\ Number "1e400" = Infinity
  /\ Number "abc" = NaN
  /\ Number "12px" = NaN
  /\ Number "1 2" = NaN.
Proof. vm_compute. repeat split. Qed.

(** White space outside ASCII is stripped too: a no-break space (the
    bytes 194 160), a byte order mark (239 187 191) and a line separator
    (226 128 168); a letter outside ASCII is no white space. *)
Example Number_white_space :
  Number (String "194" (String "160" "0.5")) = decimal 5 1
  /\ Number (String "239" (String "187" (String "191" "7"))) = of_Z 7
  /\ Number ("7" ++ String "226" (String "128" (String "168" ""))) = of_Z 7
  /\ Number (String "195" (String "160" "0.5")) = NaN.
Proof. vm_compute. repeat split. Qed.

Example number_input_values :
  map number_input_value
    [""; "1"; "-1.5"; ".5"; "1e5"; "1E-5"; "-.5e+10";
     "1."; "+1"; "1e"; "-"; "0x1"; " 1"; "abc"]
  = [true; true; true; true; true; true; true;
     false; false; false; false; false; false; false].
Proof. vm_compute. reflexivity. Qed.

(** 0.1 + 0.2 is not 0.3, and 0.285 * 100 is below 28.5. *)
Example binary64_rounding :
  add (decimal 1 1) (decimal 2 1) = Number "0.30000000000000004"
  /\ add (decimal 1 1) (decimal 2 1) <> decimal 3 1
  /\ mul (Number "0.285") (of_Z 100) = Number "28.499999999999996".
Proof. vm_compute. repeat split. discriminate. Qed.

Example Math_round_values :
  Math_round (decimal 25 1) = of_Z 3
  /\ Math_round (decimal (-25) 1) = of_Z (-2)
  /\ Math_round (decimal (-5) 1) = S754_zero true
  /\ Math_round (decimal 4 1) = S754_zero false
  /\ Math_round (Number "0.49999999999999994") = S754_zero false
  /\ Math_round (Number "1e300") = Number "1e300"
  /\ Math_round NaN = NaN
  /\ Math_round Infinity = Infinity.
Proof. vm_compute. repeat split. Qed.

Example Math_min_max_values :
  Math_max (of_Z 0) (S754_zero true) = S754_zero false
  /\ Math_max (of_Z 0) (of_Z (-3)) = of_Z 0
  /\ Math_max (of_Z 0) NaN = NaN
  /\ Math_min (of_Z 1) Infinity = of_Z 1
  /\ Math_min (of_Z 1) NaN = NaN
  /\ Math_min (of_Z 1) (decimal 5 1) = decimal 5 1.
Proof. vm_compute. repeat split. Qed.

Example toISOString_values :
  toISOString 0 = "1970-01-01T00:00:00.000Z"
  /\ toISOString (-1) = "1969-12-31T23:59:59.999Z"
  /\ toISOString 1709208000000 = "2024-02-29T12:00:00.000Z"
  /\ toISOString 1793665800000 = "2026-11-03T00:30:00.000Z"
  /\ toISOString 253402300799999 = "9999-12-31T23:59:59.999Z".
Proof. vm_compute. repeat split. Qed.

Example parse_values :
  parse "1970-01-01" = Some 0
  /\ parse "2024-02-29" = Some 1709164800000
  /\ parse "2023-02-29" = Some 1677628800000
  /\ parse "2023-02-32" = None
  /\ parse "2026-13-01" = None
  /\ parse "" = None.
Proof. vm_compute. repeat split. Qed.

(** In New York the 26th of October 2026 is a day of 24 hours and the
    1st of November one of 25: a week back from 19:30 on the 2nd of
    November is 169 hours earlier. *)
Example setDate_across_clock_change :
  getDate new_york monday_evening = 2
  /\ setDate new_york monday_evening (2 - 7)
     = monday_evening - 7 * msPerDay - 3600000
  /\ toISOString (setDate new_york monday_evening (2 - 7))
     = "2026-10-26T23:30:00.000Z".
Proof. vm_compute. repeat split. Qed.

End BuiltIns.

(** ** Order on numbers *)

Section NumberOrder.

Lemma SFcompare_antisym (x y : number) :
  SFcompare x y = CompOpp <$> SFcompare y x.
Proof.
  destruct x as [sx|sx| |sx mx ex], y as [sy|sy| |sy my ey]; simpl;
    try reflexivity;
    try (destruct sx; reflexivity); try (destruct sy; reflexivity);
    try (destruct sx, sy; reflexivity).
  destruct sx, sy; simpl; try reflexivity.
  - rewrite (Z.compare_antisym ey ex).
    destruct (ey ?= ex) eqn:E; simpl; try reflexivity.
    change (Pos.compare_cont Eq mx my) with (mx ?= my)%positive.
    change (Pos.compare_cont Eq my mx) with (my ?= mx)%positive.
    rewrite (Pos.compare_antisym my mx). reflexivity.
  - rewrite (Z.compare_antisym ey ex).
    destruct (ey ?= ex) eqn:E; simpl; try reflexivity.
    change (Pos.compare_cont Eq mx my) with (mx ?= my)%positive.
    change (Pos.compare_cont Eq my mx) with (my ?= mx)%positive.
    rewrite (Pos.compare_antisym my mx).
    destruct (my ?= mx)%positive; reflexivity.
Qed.

(** [x >= y] is the negation of [x < y] unless one of them is NaN. *)
Lemma ge_not_lt (x y : number) :
  is_nan x = false -> is_nan y = false -> ge x y = negb (lt x y).
Proof.
  intros Hx Hy. unfold ge, lt, SFleb, SFltb.
  rewrite (SFcompare_antisym y x).
  destruct (SFcompare x y) as [[]|] eqn:E; simpl; try reflexivity.
  destruct x, y; simpl in *; try discriminate;
    repeat match goal with b : bool |- _ => destruct b end; discriminate.
Qed.

Lemma lt_le (x y : number) : lt x y = true -> le x y = true.
Proof.
  unfold lt, le, SFltb, SFleb.
  destruct (SFcompare x y) as [[]|]; intros; congruence.
Qed.

Lemma le_not_nan_l (x y : number) : le x y = true -> is_nan x = false.
Proof. destruct x; [reflexivity..|discriminate|reflexivity]. Qed.

Lemma le_not_nan_r (x y : number) : le x y = true -> is_nan y = false.
Proof.
  destruct y; [reflexivity..| |reflexivity].
  destruct x; discriminate.
Qed.

Lemma lt_finite_trans (sx sy sz : bool) (mx my mz : positive) (ex ey ez : Z) :
  lt (S754_finite sx mx ex) (S754_finite sy my ey) = true ->
  lt (S754_finite sy my ey) (S754_finite sz mz ez) = true ->
  lt (S754_finite sx mx ex) (S754_finite sz mz ez) = true.
Proof.
  unfold lt, SFltb, SFcompare.
  change (Pos.compare_cont Eq mx my) with (mx ?= my)%positive.
  change (Pos.compare_cont Eq my mz) with (my ?= mz)%positive.
  change (Pos.compare_cont Eq mx mz) with (mx ?= mz)%positive.
  destruct sx, sy, sz; try congruence;
    destruct (Z.compare_spec ex ey), (Z.compare_spec ey ez),
             (Z.compare_spec ex ez);
    try congruence; try lia;
    destruct (Pos.compare_spec mx my), (Pos.compare_spec my mz),
             (Pos.compare_spec mx mz);
    simpl; try congruence; try lia.
Qed.

(** [<] is transitive. *)
Lemma lt_trans (x y z : number) :
  lt x y = true -> lt y z = true -> lt x z = true.
Proof.
  destruct x as [sx|sx| |sx mx ex], y as [sy|sy| |sy my ey],
           z as [sz|sz| |sz mz ez];
    try apply lt_finite_trans;
    unfold lt, SFltb; simpl;
    repeat match goal with b : bool |- _ => destruct b end;
    congruence.
Qed.

End NumberOrder.

(** ** The two confidence bars (C8) *)

Lemma lt_02_05 (c : number) :
  lt c (decimal 2 1) = true -> lt c (decimal 5 1) = true.
Proof. intros H. apply (lt_trans _ _ _ H). reflexivity. Qed.

Lemma lt_05_08 (c : number) :
  lt c (decimal 5 1) = true -> lt c (decimal 8 1) = true.
Proof. intros H. apply (lt_trans _ _ _ H). reflexivity. Qed.

(** C8, counterexample: at confidence 0.3 the dashboard indicator is a
    warning while the bar of the evaluation panel is an error, so the two
    do not assign the same severity on all of [0,1]. *)
Lemma bars_disagree_at_03 : ~ bars_agree_on_unit_interval.
Proof.
  intros H. specialize (H (decimal 3 1) eq_refl eq_refl). discriminate H.
Qed.

(** C8, amended: for a confidence c in [0,1] the dashboard indicator and
    the evaluation panel assign the same severity exactly when c < 0.2 or
    c >= 0.5; in between the indicator shows a warning and the panel an
    error. *)
Theorem bars_agree_iff (c : number) :
  le (of_Z 0) c = true -> le c (of_Z 1) = true ->
  (ConfidenceIndicator.progressColor c = AIEvaluation.bgcolor c
   <-> lt c (decimal 2 1) = true \/ ge c (decimal 5 1) = true)
  /\ (lt c (decimal 2 1) = false -> ge c (decimal 5 1) = false ->
      ConfidenceIndicator.progressColor c = warning
      /\ AIEvaluation.bgcolor c = error).
Proof.
  intros H0 H1.
  assert (Hc : is_nan c = false) by (eapply le_not_nan_l; eassumption).
  unfold ConfidenceIndicator.progressColor, AIEvaluation.bgcolor.
  rewrite !ge_not_lt by (assumption || reflexivity).
  pose proof (lt_02_05 c) as H25. pose proof (lt_05_08 c) as H58.
  destruct (lt c (decimal 2 1)), (lt c (decimal 5 1)),
    (lt c (decimal 8 1)); simpl;
    try (specialize (H25 eq_refl)); try (specialize (H58 eq_refl));
    try discriminate;
    (split; [split; [auto; intros; discriminate | intros [|]; congruence]
            | intros; (discriminate || auto)]).
Qed.

Lemma bars_agree_iff_witness :
  le (of_Z 0) (decimal 9 1) = true /\ le (decimal 9 1) (of_Z 1) = true
  /\ (ConfidenceIndicator.progressColor (decimal 9 1)
      = AIEvaluation.bgcolor (decimal 9 1)
      <-> lt (decimal 9 1) (decimal 2 1) = true
          \/ ge (decimal 9 1) (decimal 5 1) = true).
Proof.
  split; [reflexivity | split; [reflexivity |]].
  exact (proj1 (bars_agree_iff (decimal 9 1) eq_refl eq_refl)).
Defined.

(** ** Committing a confidence bound (C7) *)

Section Rounding.

Lemma shr_1_nonneg (mrs : shr_record) : 0 <= shr_m mrs -> 0 <= shr_m (shr_1 mrs).
Proof.
  destruct mrs as [m r s]. simpl.
  destruct m as [|p|p]; [| destruct p | lia]; simpl; lia.
Qed.

Lemma iter_shr_1_nonneg (p : positive) (mrs : shr_record) :
  0 <= shr_m mrs -> 0 <= shr_m (iter_pos shr_1 p mrs).
Proof.
  revert mrs. induction p as [p IH|p IH|]; intros mrs H; simpl.
  - apply IH, IH, shr_1_nonneg, H.
  - apply IH, IH, H.
  - apply shr_1_nonneg, H.
Qed.

Lemma shr_fexp_nonneg (m e : Z) (l : location) :
  0 <= m -> 0 <= shr_m (fst (shr_fexp prec emax m e l)).
Proof.
  intros H. unfold shr_fexp, shr.
  assert (H' : 0 <= shr_m (shr_record_of_loc m l))
    by (destruct l as [|[]]; exact H).
  destruct (fexp prec emax (Zdigits2 m + e) - e); simpl; auto.
  apply iter_shr_1_nonneg, H'.
Qed.

Lemma round_nearest_even_nonneg (m : Z) (l : location) :
  0 <= m -> 0 <= round_nearest_even m l.
Proof.
  intros H. destruct l as [|[]]; simpl; try lia.
  destruct (Z.even m); lia.
Qed.

(** Rounding a non-negative mantissa never yields NaN. *)
Lemma binary_round_aux_not_nan (s : bool) (m e : Z) (l : location) :
  0 <= m -> is_nan (binary_round_aux prec emax s m e l) = false.
Proof.
  intros H. unfold binary_round_aux.
  pose proof (shr_fexp_nonneg m e l H) as H1.
  destruct (shr_fexp prec emax m e l) as [mrs' e'] eqn:E1. simpl in H1.
  pose proof (shr_fexp_nonneg _ e' loc_Exact
                (round_nearest_even_nonneg _ (loc_of_shr_record mrs') H1)) as H2.
  destruct (shr_fexp prec emax _ e' loc_Exact) as [mrs'' e''] eqn:E2.
  simpl in H2.
  destruct (shr_m mrs'') as [|p|p]; [reflexivity| |lia].
  destruct (e'' <=? emax - prec); reflexivity.
Qed.

Lemma of_Z_not_nan (n : Z) : is_nan (of_Z n) = false.
Proof.
  destruct n as [|p|p]; [reflexivity| |];
    unfold of_Z, binary_normalize, binary_round;
    destruct (shl_align _ _ _); apply binary_round_aux_not_nan; lia.
Qed.

Lemma Math_round_not_nan (x : number) :
  is_nan x = false -> is_nan (Math_round x) = false.
Proof.
  destruct x as [s|s| |s m e]; simpl; try congruence. intros _.
  destruct (0 <=? e); [reflexivity|].
  destruct (_ =? 0); [reflexivity | apply of_Z_not_nan].
Qed.

Lemma mul_finite_not_nan (x : number) (s : bool) (m : positive) (e : Z) :
  is_nan x = false -> is_nan (mul x (S754_finite s m e)) = false.
Proof.
  destruct x as [sx|sx| |sx mx ex]; simpl; try congruence. intros _.
  apply binary_round_aux_not_nan. lia.
Qed.

Lemma div_finite_not_nan (x : number) (s : bool) (m : positive) (e : Z) :
  is_nan x = false -> is_nan (div x (S754_finite s m e)) = false.
Proof.
  destruct x as [sx|sx| |sx mx ex]; simpl; try congruence. intros _.
  unfold SFdiv_core_binary.
  set (m' := match _ - _ - _ with Z0 => _ | Zpos _ => _ | Zneg _ => _ end).
  assert (Hm' : 0 <= m').
  { subst m'. destruct (_ - _ - _); [lia| |lia].
    apply Z.shiftl_nonneg. lia. }
  pose proof (Z_div_mod m' (Z.pos m) ltac:(lia)) as Hd.
  destruct (Z.div_eucl m' (Z.pos m)) as [q r].
  apply binary_round_aux_not_nan. nia.
Qed.

End Rounding.

(** ** The value of a number input is read as a number *)

Section NumberInput.


Lemma read_digits_cons (base : Z) (c : ascii) (l : list ascii) (acc : Z)
  (cnt : nat) :
  read_digits base (c :: l) acc cnt
  = match digit_of base c with
    | Some d => read_digits base l (base * acc + d) (S cnt)
    | None => (acc, cnt, c :: l)
    end.
Proof. reflexivity. Qed.























End NumberInput.

Section Commit.

Import TraceFiltersPanel.

(** Clamping a number that is not NaN lands in [0,1]: on 0, on 1, or on
    the number itself. *)
Lemma clamp_in_unit (y : number) :
  is_nan y = false ->
  let c := Math_min (of_Z 1) (Math_max (of_Z 0) y) in
  in_unit c = true /\ (c = of_Z 0 \/ c = of_Z 1 \/ c = y).
Proof.
  intros Hy c. subst c. unfold Math_max.
  rewrite Hy. change (is_nan (of_Z 0)) with false. simpl orb. cbv iota.
  destruct (lt (of_Z 0) y) eqn:H0y.
  - unfold Math_min. rewrite Hy. change (is_nan (of_Z 1)) with false.
    simpl orb. cbv iota.
    destruct (lt (of_Z 1) y) eqn:H1y; [split; [reflexivity | auto] |].
    destruct (lt y (of_Z 1)) eqn:Hy1.
    + split; [| auto]. unfold in_unit.
      rewrite (lt_le _ _ H0y), (lt_le _ _ Hy1). reflexivity.
    + split; [reflexivity | auto].
  - assert (E : (if lt y (of_Z 0) then of_Z 0
                 else match of_Z 0, y with
                      | S754_zero true, S754_zero false => y
                      | _, _ => of_Z 0
                      end) = of_Z 0) by (destruct (lt y (of_Z 0)); reflexivity).
    rewrite E. split; [reflexivity | auto].
Qed.

Lemma clamped_not_nan (raw : string) :
  is_nan (Number raw) = false ->
  is_nan (div (Math_round (mul (Number raw) (of_Z 100))) (of_Z 100)) = false.
Proof.
  intros H. apply div_finite_not_nan, Math_round_not_nan.
  apply mul_finite_not_nan, H.
Qed.

(** Without the number input in front, the commit would store NaN: for
    the string abc, which no number input hands over, the bound is neither
    null nor within [0,1]. *)
Lemma commit_stores_nan : ~ commit_stores_null_or_unit.
Proof.
  intros H.
  destruct (H FiltersPanel.DEFAULT_TRACE_FILTERS "abc") as [H1 _].
  vm_compute in H1. discriminate H1.
Qed.




(** Number("0.285") * 100 is 28.499999999999996, which rounds to 28. *)
Example commitMin_0285 :
  minConfidence (commitMin FiltersPanel.DEFAULT_TRACE_FILTERS "0.285")
  = Some (decimal 28 2).
Proof. vm_compute. reflexivity. Qed.

Example commitMax_7 :
  maxConfidence (commitMax FiltersPanel.DEFAULT_TRACE_FILTERS "7")
  = Some (of_Z 1).
Proof. vm_compute. reflexivity. Qed.

Example commitMin_negative :
  minConfidence (commitMin FiltersPanel.DEFAULT_TRACE_FILTERS "-3e2")
  = Some (of_Z 0).
Proof. vm_compute. reflexivity. Qed.

(** The episode panel commits its bound in the same way. *)
Lemma episode_commit_stores_clamped (filters : EpisodeFilters)
  (value : string) :
  is_nan (Number value) = false ->
  match minConfidenceLt (EpisodesFiltersPanel.commit filters value) with
  | None => value = ""
  | Some c => in_unit c = true
  end.
Proof.
  intros H. unfold EpisodesFiltersPanel.commit.
  destruct (String.eqb_spec value "") as [->|Hne]; simpl; [reflexivity|].
  apply clamp_in_unit, clamped_not_nan, H.
Qed.

End Commit.

(** ** The filter record and its default (C5) *)

Section Filters.

Import TraceFiltersPanel FiltersPanel.

Lemma truthy_str_false (s : string) : truthy_str s = false <-> s = "".
Proof.
  unfold truthy_str. destruct (String.eqb_spec s ""); simpl; split;
    intros; congruence.
Qed.

Lemma not_null_false {A : Type} (o : option A) :
  bool_decide (o <> None) = false <-> o = None.
Proof.
  rewrite bool_decide_eq_false. destruct o; split; intros H;
    try congruence; try reflexivity.
  exfalso. apply H. discriminate.
Qed.

Lemma filter_all {A : Type} (P : A -> bool) (l : list A) :
  (forall x, P x = true) -> List.filter P l = l.
Proof.
  intros H. induction l as [|x l IH]; [reflexivity |].
  simpl. rewrite H, IH. reflexivity.
Qed.

Lemma constrain_string_spec (test : string -> Trace -> bool)
  (filter : string) (t : Trace) :
  TraceQuery.constrain_string test filter t = true
  <-> (filter <> "" -> test filter t = true).
Proof.
  unfold TraceQuery.constrain_string, truthy_str.
  destruct (String.eqb_spec filter ""); simpl; split; intros; auto;
    contradiction.
Qed.

Lemma constrain_number_spec (test : number -> Trace -> bool)
  (filter : option number) (t : Trace) :
  TraceQuery.constrain_number test filter t = true
  <-> (forall bound, filter = Some bound -> test bound t = true).
Proof.
  destruct filter as [b|]; simpl; split; intros H; auto.
  - intros bound [= <-]. exact H.
  - intros bound [=].
Qed.

(** C5: a trace filter is exactly a choice of status, error type, minimum
    rating, confidence range (min, max) and time range (start, end); the
    default sets each of them to the empty string or null, and it is the
    one state in which no chip is active.  Under the default nothing is
    constrained: whatever the store's tests of a present filter are, every
    trace matches, a listing keeps every trace and counts them all, and a
    trace matches any filters exactly when it passes the test of each
    filter that is present. *)
Theorem default_filters_unconstrained :
  (forall f : TraceFilters,
      f = {| status := status f; errorType := errorType f;
             minRating := minRating f;
             minConfidence := minConfidence f;
             maxConfidence := maxConfidence f;
             startTime := startTime f; endTime := endTime f |})
  /\ status DEFAULT_TRACE_FILTERS = ""
  /\ errorType DEFAULT_TRACE_FILTERS = ""
  /\ minRating DEFAULT_TRACE_FILTERS = None
  /\ minConfidence DEFAULT_TRACE_FILTERS = None
  /\ maxConfidence DEFAULT_TRACE_FILTERS = None
  /\ startTime DEFAULT_TRACE_FILTERS = ""
  /\ endTime DEFAULT_TRACE_FILTERS = ""
  /\ (forall f : TraceFilters,
        anyActive f = false <-> f = DEFAULT_TRACE_FILTERS)
  /\ clearAll = DEFAULT_TRACE_FILTERS
  /\ (forall (T : TraceQuery.Tests) (t : Trace),
        TraceQuery.matches T DEFAULT_TRACE_FILTERS t = true)
  /\ (forall (T : TraceQuery.Tests) (skip limit : nat) (traces : list Trace),
        TraceQuery.list_traces T DEFAULT_TRACE_FILTERS skip limit traces
        = (take limit (drop skip traces), List.length traces))
  /\ (forall (T : TraceQuery.Tests) (f : TraceFilters) (t : Trace),
        TraceQuery.matches T f t = true
        <-> (status f <> "" -> TraceQuery.has_status T (status f) t = true)
            /\ (errorType f <> "" ->
                TraceQuery.has_error_type T (errorType f) t = true)
            /\ (forall r, minRating f = Some r ->
                  TraceQuery.rating_at_least T r t = true)
            /\ (forall c, minConfidence f = Some c ->
                  TraceQuery.confidence_at_least T c t = true)
            /\ (forall c, maxConfidence f = Some c ->
                  TraceQuery.confidence_at_most T c t = true)
            /\ (startTime f <> "" ->
                TraceQuery.not_before T (startTime f) t = true)
            /\ (endTime f <> "" ->
                TraceQuery.not_after T (endTime f) t = true)).
Proof.
  split; [intros []; reflexivity |].
  repeat (split; [reflexivity |]).
  split; [| split; [reflexivity |]].
  - intros [st et mr mn mx s e].
    unfold anyActive, statusActive, errorTypeActive, minRatingActive,
      confActive, dateActive, DEFAULT_TRACE_FILTERS; simpl.
    rewrite !orb_false_iff, !truthy_str_false, !not_null_false.
    split.
    + intros [[[[-> ->] ->] [-> ->]] [-> ->]]. reflexivity.
    + intros [= -> -> -> -> -> -> ->]. auto 10.
  - split; [reflexivity |]. split.
    + intros T skip limit traces. unfold TraceQuery.list_traces.
      rewrite (filter_all _ traces) by reflexivity. reflexivity.
    + intros T f t. unfold TraceQuery.matches.
      rewrite !andb_true_iff, !constrain_string_spec, !constrain_number_spec.
      tauto.
Qed.

(** ** Clearing a chip (C9) *)

(** C9: the clear action of a chip resets the fields of its own group and
    leaves every other field of the filters as it was: status; error type;
    minimum rating; the two confidence bounds; the two ends of the time
    range. *)
Theorem clear_changes_own_group_only (f : TraceFilters) :
  clearStatus f
  = {| status := ""; errorType := errorType f; minRating := minRating f;
       minConfidence := minConfidence f; maxConfidence := maxConfidence f;
       startTime := startTime f; endTime := endTime f |}
  /\ clearErrorType f
     = {| status := status f; errorType := ""; minRating := minRating f;
          minConfidence := minConfidence f;
          maxConfidence := maxConfidence f;
          startTime := startTime f; endTime := endTime f |}
  /\ clearMinRating f
     = {| status := status f; errorType := errorType f; minRating := None;
          minConfidence := minConfidence f;
          maxConfidence := maxConfidence f;
          startTime := startTime f; endTime := endTime f |}
  /\ clearConfidence f
     = {| status := status f; errorType := errorType f;
          minRating := minRating f;
          minConfidence := None; maxConfidence := None;
          startTime := startTime f; endTime := endTime f |}
  /\ clearDate f
     = {| status := status f; errorType := errorType f;
          minRating := minRating f;
          minConfidence := minConfidence f;
          maxConfidence := maxConfidence f;
          startTime := ""; endTime := "" |}.
Proof. repeat split. Qed.

(** Each cleared chip is inactive afterwards, and no other chip changes
    between active and inactive. *)
Lemma clear_deactivates (f : TraceFilters) :
  statusActive (clearStatus f) = false
  /\ errorTypeActive (clearErrorType f) = false
  /\ minRatingActive (clearMinRating f) = false
  /\ confActive (clearConfidence f) = false
  /\ dateActive (clearDate f) = false.
Proof. repeat split. Qed.

End Filters.

(** ** Latest feedback (C1) *)

Section Feedback.

Import TraceUtils TraceStore.

(** The accessor returns null exactly for a trace without feedback, and
    otherwise the entry at index 0. *)
Lemma traceGetLatestFeedback_head (trace : Trace) :
  traceGetLatestFeedback trace = head (feedbacks trace)
  /\ (traceGetLatestFeedback trace = None <-> feedbacks trace = []).
Proof.
  unfold traceGetLatestFeedback.
  destruct (feedbacks trace); simpl; split; try reflexivity;
    split; congruence.
Qed.

(** With at most one entry, index 0 holds the most recent entry. *)
Lemma traceGetLatestFeedback_single (trace : Trace) :
  (List.length (feedbacks trace) <= 1)%nat ->
  traceGetLatestFeedback trace = most_recent (feedbacks trace).
Proof.
  unfold traceGetLatestFeedback, most_recent.
  destruct (feedbacks trace) as [|f [|g l]]; simpl; intros; try reflexivity.
  lia.
Qed.

(** C1: after a first feedback (rating 1) and then a second one (rating 5)
    have been appended to a trace, the accessor returns the first, the
    oldest entry, while the most recently appended entry is the second. *)
Theorem traceGetLatestFeedback_returns_oldest :
  let f1 := feedback_of 1 "first" in
  let f2 := feedback_of 5 "second" in
  let trace := addFeedback (addFeedback empty_trace f1) f2 in
  feedbacks trace = [f1; f2]
  /\ traceGetLatestFeedback trace = Some f1
  /\ most_recent (feedbacks trace) = Some f2
  /\ f1 <> f2.
Proof. repeat split. discriminate. Qed.

End Feedback.

(** ** Confidence of unevaluated traces and episodes (C3) *)

Section Unevaluated.

Import TraceUtils TraceRows EpisodeUtils EpisodesTable.

Lemma evaluated_confidences_none (ts : list Trace) :
  Forall (fun t => nullish (traceGetEvaluation t)) ts ->
  evaluated_confidences ts = [].
Proof.
  induction 1 as [|t ts Ht _ IH]; [reflexivity|].
  unfold evaluated_confidences in *. simpl.
  destruct Ht as [-> | ->]; simpl; exact IH.
Qed.

(** A missing attribute is no evaluation block. *)
Lemma missing_evaluation_nullish (trace : Trace) :
  trace_attributes trace !! "tracebrain.ai_evaluation" = None ->
  nullish (traceGetEvaluation trace).
Proof. intros H. left. unfold traceGetEvaluation, prop. rewrite H. reflexivity. Qed.

(** C3: a trace without an evaluation block (the attribute is missing or
    null) is listed with an undefined confidence, which is not the number
    zero nor any number, and as still analyzing; an episode none of whose
    traces carries an evaluation has an undefined average confidence, not
    zero, and is shown as still analyzing. *)
Theorem unevaluated_confidence_is_absent (trace : Trace) (episode : Episode) :
  nullish (traceGetEvaluation trace) ->
  Forall (fun t => nullish (traceGetEvaluation t)) (traces episode) ->
  (Indicator.confidence (TraceRow trace) = JUndefined
   /\ Indicator.isAnalyzing (TraceRow trace) = true
   /\ forall z : number, Indicator.confidence (TraceRow trace) <> JNum z)
  /\ (episodeGetAverageConfidence episode = JUndefined
      /\ Indicator.confidence (EpisodeRow episode) = JUndefined
      /\ Indicator.isAnalyzing (EpisodeRow episode) = true
      /\ forall z : number,
           Indicator.confidence (EpisodeRow episode) <> JNum z).
Proof.
  intros Ht He. split.
  - unfold TraceRow. destruct Ht as [-> | ->]; simpl;
      repeat split; discriminate.
  - unfold EpisodeRow, episodeGetAverageConfidence.
    rewrite (evaluated_confidences_none _ He). simpl.
    repeat split. discriminate.
Qed.

Lemma unevaluated_confidence_is_absent_witness :
  nullish (traceGetEvaluation unevaluated_trace)
  /\ Forall (fun t => nullish (traceGetEvaluation t))
            (traces unevaluated_episode)
  /\ Indicator.confidence (TraceRow unevaluated_trace) = JUndefined
  /\ Indicator.isAnalyzing (TraceRow unevaluated_trace) = true
  /\ Indicator.confidence (EpisodeRow unevaluated_episode) = JUndefined
  /\ Indicator.isAnalyzing (EpisodeRow unevaluated_episode) = true.
Proof.
  assert (H1 : nullish (traceGetEvaluation unevaluated_trace))
    by (left; reflexivity).
  assert (H2 : Forall (fun t => nullish (traceGetEvaluation t))
                      (traces unevaluated_episode))
    by (repeat constructor; exact H1).
  destruct (unevaluated_confidence_is_absent unevaluated_trace
              unevaluated_episode H1 H2)
    as [[Hc [Ha _]] [_ [Hec [Hea _]]]].
  split; [exact H1 |]. split; [exact H2 |].
  split; [exact Hc |]. split; [exact Ha |].
  split; [exact Hec | exact Hea].
Defined.

(** An evaluated trace is listed with its confidence, and an episode
    averages over its evaluated traces only. *)
Example evaluated_trace_confidence :
  let evaluation :=
    JObj {[ "confidence" := JNum (decimal 5 1); "status" := JStr "completed" ]} in
  let evaluated :=
    {| trace_id := "T2"; created_at := "2026-01-01T00:00:00Z";
       feedbacks := [];
       trace_attributes := {[ "tracebrain.ai_evaluation" := evaluation ]};
       spans := [] |} in
  Indicator.confidence (TraceRow evaluated) = JNum (decimal 5 1)
  /\ Indicator.isAnalyzing (TraceRow evaluated) = false
  /\ episodeGetAverageConfidence
       {| episode_id := "E2"; traces := [unevaluated_trace; evaluated] |}
     = JNum (decimal 5 1).
Proof. vm_compute. repeat split. Qed.

End Unevaluated.

(** ** Span accessors (C6) *)

Section Accessors.

Import SpanUtils.

Lemma prop_insert_ne (o : gmap string JsVal) (k k' : string) (v : JsVal) :
  k <> k' -> prop (<[ k := v ]> o) k' = prop o k'.
Proof. intros H. unfold prop. rewrite lookup_insert_ne by exact H. reflexivity. Qed.

(** The accessors read the well-known keys only: a key outside the set can
    be added or changed without changing what they return. *)
Lemma accessors_frame (span : Span) (k : string) (v : JsVal) :
  k ∉ well_known_keys ->
  spanGetType (with_attribute span k v) = spanGetType span
  /\ spanGetInput (with_attribute span k v) = spanGetInput span
  /\ spanGetOutput (with_attribute span k v) = spanGetOutput span.
Proof.
  intros H. unfold well_known_keys in H.
  rewrite !not_elem_of_cons in H.
  destruct H as (H1 & H2 & H3 & H4 & H5 & _).
  unfold spanGetInput, spanGetOutput, spanGetType, with_attribute; simpl.
  rewrite !prop_insert_ne by assumption. auto.
Qed.

(** Whatever the span type is, unless it is the string llm_inference the
    accessors read the tool keys. *)
Lemma accessors_otherwise (span : Span) :
  spanGetType span <> JStr "llm_inference" ->
  spanGetInput span = prop (attributes span) "tracebrain.tool.input"
  /\ spanGetOutput span = prop (attributes span) "tracebrain.tool.output".
Proof.
  intros H. unfold spanGetInput, spanGetOutput.
  destruct (spanGetType span) as [| | | |s|]; simpl; auto.
  destruct (String.eqb_spec s "llm_inference") as [->|]; [congruence | auto].
Qed.

(** C6: for a span whose type attribute is one of the three enumerated
    variants, spanGetType returns the value under the span-type key,
    spanGetInput the value under the new_content key for llm_inference and
    under the tool-input key otherwise, spanGetOutput the value under the
    completion key for llm_inference and under the tool-output key
    otherwise; a key outside this set is not read (setting it changes none
    of the three results) and stays in the bag with the value it was
    given. *)
Theorem accessors_read_well_known_keys
  (span : Span) (t : SpanType) (k : string) (v : JsVal) :
  attributes span !! "tracebrain.span.type" = Some (JStr (span_type_name t)) ->
  k ∉ well_known_keys ->
  spanGetType span = JStr (span_type_name t)
  /\ spanGetInput span
     = prop (attributes span)
         (match t with
          | llm_inference => "tracebrain.llm.new_content"
          | _ => "tracebrain.tool.input"
          end)
  /\ spanGetOutput span
     = prop (attributes span)
         (match t with
          | llm_inference => "tracebrain.llm.completion"
          | _ => "tracebrain.tool.output"
          end)
  /\ spanGetType (with_attribute span k v) = spanGetType span
  /\ spanGetInput (with_attribute span k v) = spanGetInput span
  /\ spanGetOutput (with_attribute span k v) = spanGetOutput span
  /\ attributes (with_attribute span k v) !! k = Some v.
Proof.
  intros Ht Hk.
  assert (E : spanGetType span = JStr (span_type_name t))
    by (unfold spanGetType, prop; rewrite Ht; reflexivity).
  split; [exact E |].
  split; [unfold spanGetInput; rewrite E; destruct t; reflexivity |].
  split; [unfold spanGetOutput; rewrite E; destruct t; reflexivity |].
  destruct (accessors_frame span k v Hk) as (F1 & F2 & F3).
  repeat (split; [assumption |]).
  simpl. apply lookup_insert_eq.
Qed.

Lemma accessors_read_well_known_keys_witness :
  attributes inference !! "tracebrain.span.type"
  = Some (JStr (span_type_name llm_inference))
  /\ ("vendor.region" ∉ well_known_keys)
  /\ spanGetInput inference = JStr "42"
  /\ spanGetOutput (with_attribute inference "vendor.region" (JStr "us"))
     = JStr "The answer is 42."
  /\ attributes (with_attribute inference "vendor.region" (JStr "us"))
     !! "vendor.region" = Some (JStr "us").
Proof.
  assert (Ht : attributes inference !! "tracebrain.span.type"
               = Some (JStr (span_type_name llm_inference))) by reflexivity.
  assert (Hk : "vendor.region" ∉ well_known_keys).
  { unfold well_known_keys. rewrite !not_elem_of_cons.
    repeat split; (discriminate || apply not_elem_of_nil). }
  pose proof (accessors_read_well_known_keys inference llm_inference
                "vendor.region" (JStr "us") Ht Hk)
    as (_ & Hin & Hout & _ & _ & Hout' & Hstay).
  split; [exact Ht | split; [exact Hk |]].
  split; [rewrite Hin; reflexivity |].
  split; [rewrite Hout', Hout; reflexivity | exact Hstay].
Defined.

(** A span of another type, or of none, is read as a tool span. *)
Example spanGetInput_untyped :
  spanGetInput (mk_span "s" None {[ "tracebrain.tool.input" := JStr "2+2" ]})
  = JStr "2+2".
Proof. reflexivity. Qed.

End Accessors.

(** ** Climbing parent chains *)

Section ParentChainFacts.

Variable look : string -> option Span.
Variable link : Span -> option string.

(** The ids that resolve are among [ids]. *)
Variable ids : list string.
Hypothesis look_ids : forall id s, look id = Some s -> id ∈ ids.

Lemma climb_eq (fuel : nat) (id : string) :
  climb look link fuel id
  = match look id with
    | None => Some []
    | Some s =>
        match link s with
        | None => Some []
        | Some p =>
            match fuel with
            | O => None
            | S fuel' => cons p <$> climb look link fuel' p
            end
        end
    end.
Proof. destruct fuel; reflexivity. Qed.

Lemma parent_of_intro (id p : string) (s : Span) :
  look id = Some s -> link s = Some p -> parent_of look link id p.
Proof. intros H1 H2. exists s. auto. Qed.

Lemma parent_of_inj (id p q : string) :
  parent_of look link id p -> parent_of look link id q -> p = q.
Proof. intros (s & Hs & Hp) (s' & Hs' & Hq). congruence. Qed.

Lemma ancestor_inv (id a : string) :
  ancestor look link id a
  <-> exists p, parent_of look link id p /\ (a = p \/ ancestor look link p a).
Proof.
  split.
  - intros H. destruct H as [id p H|id p a H H']; eauto.
  - intros (p & H & [->|H']); [apply anc_parent | eapply anc_up]; eauto.
Qed.

Lemma ancestor_trans (a b c : string) :
  ancestor look link a b -> ancestor look link b c -> ancestor look link a c.
Proof.
  induction 1 as [id p H|id p a H H' IH]; intros Hc.
  - eapply anc_up; eauto.
  - eapply anc_up; eauto.
Qed.

(** What [climb] returns are the proper ancestors. *)
Lemma climb_ancestors (fuel : nat) (id : string) (l : list string) :
  climb look link fuel id = Some l ->
  forall a, a ∈ l <-> ancestor look link id a.
Proof.
  revert id l. induction fuel as [|fuel IH]; intros id l; rewrite climb_eq;
    destruct (look id) as [s|] eqn:Hs;
    try destruct (link s) as [p|] eqn:Hp; try discriminate;
    try (intros [= <-] a; rewrite elem_of_nil, ancestor_inv;
         split; [tauto | intros (q & (s' & Hs' & Hq) & _); congruence]).
  destruct (climb look link fuel p) as [l'|] eqn:Hc; [|discriminate].
  intros [= <-] a. rewrite elem_of_cons, (IH _ _ Hc), (ancestor_inv id a).
  assert (Hpar : parent_of look link id p)
    by (eapply parent_of_intro; eassumption).
  split.
  - intros H. exists p. auto.
  - intros (q & Hq & H). rewrite (parent_of_inj _ _ _ Hpar Hq). exact H.
Qed.

(** A chain that [climb] reaches the end of does not come back to its
    start. *)
Lemma climb_irrefl (fuel : nat) (id : string) (l : list string) :
  climb look link fuel id = Some l -> ~ ancestor look link id id.
Proof.
  revert id l. induction fuel as [|fuel IH]; intros id l; rewrite climb_eq;
    destruct (look id) as [s|] eqn:Hs;
    try destruct (link s) as [p|] eqn:Hp; try discriminate;
    try (intros _; rewrite ancestor_inv;
         intros (q & (s' & Hs' & Hq) & _); congruence).
  destruct (climb look link fuel p) as [l'|] eqn:Hc; [|discriminate].
  intros _ H. apply (IH _ _ Hc).
  assert (Hpar : parent_of look link id p)
    by (eapply parent_of_intro; eassumption).
  pose proof H as H'. rewrite ancestor_inv in H'.
  destruct H' as (q & Hq & H').
  rewrite <- (parent_of_inj _ _ _ Hpar Hq) in H'.
  destruct H' as [E|H'].
  - rewrite E in Hpar. apply anc_parent, Hpar.
  - eapply ancestor_trans; [exact H' | apply anc_parent, Hpar].
Qed.

(** In an acyclic store a climb never needs more steps than there are
    ids: [seen] are the nodes already left behind. *)
Lemma climb_fuel (fuel : nat) (id : string) (seen : list string) :
  acyclic look link ->
  NoDup seen ->
  (forall x, x ∈ seen -> x ∈ ids /\ ancestor look link x id) ->
  (List.length ids <= List.length seen + fuel)%nat ->
  is_Some (climb look link fuel id).
Proof.
  intros Hacyc. revert id seen.
  induction fuel as [|fuel IH]; intros id seen Hnd Hseen Hlen;
    rewrite climb_eq;
    destruct (look id) as [s|] eqn:Hs; try (eexists; reflexivity);
    destruct (link s) as [p|] eqn:Hp; try (eexists; reflexivity).
  all: assert (Hpar : parent_of look link id p)
    by (eapply parent_of_intro; eassumption).
  all: assert (Hfresh : id ∉ seen)
    by (intros Hin; apply (Hacyc id), (Hseen id Hin)).
  all: assert (Hnd' : NoDup (id :: seen)) by (constructor; assumption).
  all: assert (Hsub : (id :: seen) ⊆+ ids).
  1, 3: apply NoDup_submseteq; [exact Hnd' |];
        intros x [->|Hx]%elem_of_cons; [eapply look_ids, Hs | apply Hseen, Hx].
  all: apply submseteq_length in Hsub; simpl in Hsub.
  - lia.
  - destruct (IH p (id :: seen) Hnd') as [l' Hl'].
    + intros x [->|Hx]%elem_of_cons.
      * split; [eapply look_ids, Hs | apply anc_parent, Hpar].
      * split; [apply Hseen, Hx |].
        eapply ancestor_trans; [apply Hseen, Hx | apply anc_parent, Hpar].
    + simpl. lia.
    + rewrite Hl'. eexists; reflexivity.
Qed.

(** Total on acyclic stores. *)
Lemma climb_total (fuel : nat) (id : string) :
  acyclic look link -> (List.length ids <= fuel)%nat ->
  is_Some (climb look link fuel id).
Proof.
  intros Hacyc Hlen. apply (climb_fuel fuel id []); auto.
  - constructor.
  - intros x Hx. inversion Hx.
Qed.

(** The ancestors found by a climb are distinct from each other and from
    the start. *)
Lemma climb_NoDup (fuel : nat) (id : string) (l : list string) :
  acyclic look link ->
  climb look link fuel id = Some l -> NoDup (id :: l).
Proof.
  intros Hacyc. revert id l.
  induction fuel as [|fuel IH]; intros id l Hl;
    (constructor;
     [intros Hin; apply (Hacyc id), (climb_ancestors _ _ _ Hl), Hin |]);
    rewrite climb_eq in Hl;
    destruct (look id) as [s|] eqn:Hs;
    try destruct (link s) as [p|] eqn:Hp; try discriminate;
    try (injection Hl as <-; constructor).
  destruct (climb look link fuel p) as [l'|] eqn:Hc; [|discriminate].
  injection Hl as <-. apply (IH _ _ Hc).
Qed.

(** The path to the root, when every reference resolves. *)
Lemma climb_path (fuel : nat) (id : string) (l : list string) :
  resolved look link -> is_Some (look id) ->
  climb look link fuel id = Some l -> path look link id l.
Proof.
  intros Hres. revert id l.
  induction fuel as [|fuel IH]; intros id l [s Hs] Hl;
    rewrite climb_eq, Hs in Hl;
    destruct (link s) as [p|] eqn:Hp; try discriminate;
    try (injection Hl as <-; eapply path_root; eassumption).
  destruct (climb look link fuel p) as [l'|] eqn:Hc; [|discriminate].
  injection Hl as <-.
  assert (Hpar : parent_of look link id p)
    by (eapply parent_of_intro; eassumption).
  apply path_step; [exact Hpar |].
  apply IH; [eapply Hres, Hpar | exact Hc].
Qed.

Lemma path_resolved (id : string) (l : list string) :
  resolved look link -> path look link id l ->
  is_Some (look id) /\ Forall (fun p => is_Some (look p)) l.
Proof.
  intros Hres. induction 1 as [id s Hs Hl|id p l Hpar Hp IH].
  - split; [eauto | constructor].
  - destruct IH as [IH1 IH2]. split; [| constructor; assumption].
    destruct Hpar as (s & Hs & _). eauto.
Qed.

(** In a forest, a path with its start is no longer than the store. *)
Lemma path_length (fuel : nat) (id : string) (l : list string) :
  forest look link -> is_Some (look id) ->
  climb look link fuel id = Some l ->
  (S (List.length l) <= List.length ids)%nat.
Proof.
  intros [Hres Hacyc] Hid Hl.
  pose proof (climb_NoDup _ _ _ Hacyc Hl) as Hnd.
  destruct (path_resolved id l Hres (climb_path _ _ _ Hres Hid Hl))
    as [[s Hs] Hall].
  assert (Hsub : (id :: l) ⊆+ ids).
  { apply NoDup_submseteq; [exact Hnd |].
    intros x [->|Hx]%elem_of_cons; [eapply look_ids, Hs |].
    rewrite Forall_forall in Hall. destruct (Hall x Hx) as [sx Hsx].
    eapply look_ids, Hsx. }
  apply submseteq_length in Hsub. exact Hsub.
Qed.

(** The check decides the forest invariant. *)
Lemma forest_check_sound :
  forest_check look link ids = true -> forest look link.
Proof.
  unfold forest_check. rewrite forallb_forall. intros Hchk. split.
  - intros id p (s & Hs & Hp).
    specialize (Hchk id (proj1 (list_elem_of_In _ _) (look_ids _ _ Hs))).
    rewrite climb_eq, Hs, Hp in Hchk.
    destruct (List.length ids) as [|n]; [discriminate|].
    destruct (climb look link n p) as [l'|]; [|discriminate].
    simpl in Hchk. apply andb_true_iff in Hchk as [Hchk _].
    apply bool_decide_eq_true in Hchk. exact Hchk.
  - intros id H. pose proof H as H'. rewrite ancestor_inv in H'.
    destruct H' as (p & (s & Hs & Hp) & _).
    specialize (Hchk id (proj1 (list_elem_of_In _ _) (look_ids _ _ Hs))).
    destruct (climb look link (List.length ids) id) as [l|] eqn:Hl;
      [|discriminate].
    exact (climb_irrefl _ _ _ Hl H).
Qed.

End ParentChainFacts.

(** ** Expanding the ancestors of the preselected span (C4) *)

Section Expansion.

Import TraceVisualizer.

Variable allSpans : list Span.

Lemma find_span_ids (id : string) (s : Span) :
  find_span allSpans id = Some s -> id ∈ span_ids allSpans.
Proof.
  intros H. apply find_some in H as [Hin Heq].
  apply String.eqb_eq in Heq as <-.
  apply list_elem_of_In, in_map, Hin.
Qed.

Lemma expand_loop_eq (fuel : nat) (current : option Span)
  (nodes : gset string) :
  expand_loop fuel allSpans current nodes
  = match current ≫= truthy_parent with
    | None => Some nodes
    | Some p =>
        match fuel with
        | O => None
        | S fuel' =>
            expand_loop fuel' allSpans (find_span allSpans p)
              ({[ p ]} ∪ nodes)
        end
    end.
Proof. destruct fuel; reflexivity. Qed.

(** The loop adds what a climb along the truthy parent references finds. *)
Lemma expand_loop_climb (fuel : nat) (id : string) (nodes : gset string) :
  expand_loop fuel allSpans (find_span allSpans id) nodes
  = (fun l => list_to_set l ∪ nodes)
      <$> climb (find_span allSpans) truthy_parent fuel id.
Proof.
  revert id nodes. induction fuel as [|fuel IH]; intros id nodes;
    rewrite expand_loop_eq, climb_eq;
    destruct (find_span allSpans id) as [s|]; simpl;
    try destruct (truthy_parent s) as [p|]; simpl;
    try reflexivity;
    try (rewrite (left_id_L ∅ (∪)); reflexivity).
  rewrite IH. destruct (climb _ _ fuel p) as [l|]; simpl; [|reflexivity].
  rewrite (comm_L (∪) {[ p ]} (list_to_set l)).
  rewrite <- (assoc_L (∪)). reflexivity.
Qed.

(** C4, amended: for every list of spans that is a forest, where the
    parent reference of a span is its parent_id unless that is null or the
    empty string, and for every preselected span id other than the empty
    string, the walk ends within as many iterations as there are spans and
    adds to the set exactly the ids of the proper ancestors of the
    preselected span. *)
Theorem expandAncestors_exact (preselectedSpan : string)
  (nodes : gset string) :
  forest (find_span allSpans) truthy_parent ->
  preselectedSpan <> "" ->
  exists r : gset string,
    (forall fuel, (List.length allSpans <= fuel)%nat ->
       expandAncestors fuel allSpans (Some preselectedSpan) nodes = Some r)
    /\ forall a,
         a ∈ r
         <-> a ∈ nodes
             \/ ancestor (find_span allSpans) truthy_parent preselectedSpan a.
Proof.
  intros [Hres Hacyc] Hne.
  assert (Hlen : List.length (span_ids allSpans) = List.length allSpans)
    by apply length_map.
  destruct (climb_total _ _ _ find_span_ids (List.length allSpans)
              preselectedSpan Hacyc ltac:(lia)) as [l Hl].
  exists (list_to_set l ∪ nodes). split.
  - intros fuel Hfuel. unfold expandAncestors, truthy_str.
    destruct (String.eqb_spec preselectedSpan ""); [contradiction|]. simpl.
    rewrite expand_loop_climb.
    destruct (climb_total _ _ _ find_span_ids fuel preselectedSpan Hacyc
                ltac:(lia)) as [l' Hl'].
    rewrite Hl'. simpl. do 2 f_equal.
    apply set_eq. intros a. rewrite !elem_of_list_to_set.
    rewrite (climb_ancestors _ _ _ _ _ Hl), (climb_ancestors _ _ _ _ _ Hl').
    reflexivity.
  - intros a. rewrite elem_of_union, elem_of_list_to_set.
    rewrite (climb_ancestors _ _ _ _ _ Hl). tauto.
Qed.

End Expansion.

Section ExpansionExamples.

Import TraceVisualizer.

Lemma scenario_forest : forest (find_span scenario) truthy_parent.
Proof.
  apply (forest_check_sound _ _ _ (find_span_ids scenario)). reflexivity.
Qed.

Lemma expandAncestors_exact_witness :
  forest (find_span scenario) truthy_parent /\ "s3" <> ""
  /\ exists r : gset string,
       (forall fuel, (List.length scenario <= fuel)%nat ->
          expandAncestors fuel scenario (Some "s3") ∅ = Some r)
       /\ forall a,
            a ∈ r
            <-> a ∈ (∅ : gset string)
                \/ ancestor (find_span scenario) truthy_parent "s3" a.
Proof.
  split; [exact scenario_forest | split; [discriminate |]].
  exact (expandAncestors_exact scenario "s3" ∅ scenario_forest
           ltac:(discriminate)).
Defined.

Example expandAncestors_scenario :
  expandAncestors 3 scenario (Some "s3") ∅ = Some {[ "s1"; "s2" ]}.
Proof. vm_compute. reflexivity. Qed.

Lemma empty_id_root_forest : forest (find_span empty_id_root) parent_id.
Proof.
  apply (forest_check_sound _ _ _ (find_span_ids empty_id_root)). reflexivity.
Qed.

(** C4, counterexample: in the forest made of a root whose id is the empty
    string and of its child b, the walk from b adds nothing, although the
    root is a proper ancestor of b. *)
Lemma walk_misses_empty_id_parent : ~ walk_adds_exactly_proper_ancestors.
Proof.
  intros H.
  destruct (H empty_id_root "b" ∅ empty_id_root_forest) as (fuel & r & Hr & Hex).
  assert (E : expandAncestors fuel empty_id_root (Some "b") ∅ = Some ∅)
    by (destruct fuel; reflexivity).
  rewrite E in Hr. injection Hr as <-.
  apply (not_elem_of_empty (C := gset string) ""), Hex. right.
  apply anc_parent. eexists. split; reflexivity.
Qed.

End ExpansionExamples.

(** ** Reconstruction (C2) *)

Section Reconstruction.

Import ReconstructionEngine.

Lemma append_assoc (s1 s2 s3 : string) :
  ((s1 ++ s2) ++ s3 = s1 ++ (s2 ++ s3))%string.
Proof.
  induction s1 as [|c s1 IH]; [reflexivity|].
  change (String c ((s1 ++ s2) ++ s3) = String c (s1 ++ s2 ++ s3))%string.
  rewrite IH. reflexivity.
Qed.

Lemma append_nil_r (s : string) : (s ++ "")%string = s.
Proof.
  induction s as [|c s IH]; [reflexivity|].
  change (String c (s ++ "") = String c s)%string. rewrite IH. reflexivity.
Qed.

Lemma concat_deltas_app (look : string -> option Span) (l1 l2 : list string) :
  concat_deltas look (l1 ++ l2)
  = (concat_deltas look l1 ++ concat_deltas look l2)%string.
Proof.
  induction l1 as [|id l1 IH]; simpl; [reflexivity|].
  rewrite IH, append_assoc. reflexivity.
Qed.

(** A span without a delta contributes the empty string. *)
Lemma delta_absent (s : Span) :
  attributes s !! "tracebrain.llm.new_content" = None -> delta s = "".
Proof. unfold delta. intros ->. reflexivity. Qed.

Lemma walk_S (fuel : nat) (nodes : gmap string Span) (id acc : string) :
  walk (S fuel) nodes id acc
  = match nodes !! id with
    | None => None
    | Some s =>
        match parent_id s with
        | None => Some (delta s ++ acc)%string
        | Some p => walk fuel nodes p (delta s ++ acc)%string
        end
    end.
Proof. reflexivity. Qed.

Variable spans : list Span.

Lemma build_ids (id : string) (s : Span) :
  find_node spans id = Some s -> id ∈ node_ids spans.
Proof.
  intros H. apply list_elem_of_fmap. exists (id, s).
  split; [reflexivity | apply elem_of_map_to_list, H].
Qed.

Lemma build_ids_length : List.length (node_ids spans) = size (build spans).
Proof. unfold node_ids. rewrite length_fmap. apply length_map_to_list. Qed.

(** With fuel for every node of the path, the walk returns the deltas from
    the root down to the start, in front of what it was given. *)
Lemma walk_climb (fuel f : nat) (id : string) (l : list string) (acc : string) :
  resolved (find_node spans) parent_id ->
  is_Some (find_node spans id) ->
  climb (find_node spans) parent_id f id = Some l ->
  (List.length l < fuel)%nat ->
  walk fuel (build spans) id acc
  = Some (concat_deltas (find_node spans) (rev l ++ [id]) ++ acc)%string.
Proof.
  intros Hres. revert f id l acc.
  induction fuel as [|fuel IH]; intros f id l acc [s Hs] Hl Hlen; [lia|].
  rewrite climb_eq, Hs in Hl. rewrite walk_S.
  change (build spans !! id) with (find_node spans id). rewrite Hs.
  assert (Hd : delta_of (find_node spans) id = delta s)
    by (unfold delta_of; rewrite Hs; reflexivity).
  destruct (parent_id s) as [p|] eqn:Hp.
  - destruct f as [|f]; [discriminate|].
    destruct (climb (find_node spans) parent_id f p) as [l'|] eqn:Hl';
      [|discriminate].
    injection Hl as <-. simpl in Hlen.
    assert (Hpar : parent_of (find_node spans) parent_id id p)
      by (eapply parent_of_intro; eassumption).
    rewrite (IH f p l' _ (Hres _ _ Hpar) Hl' ltac:(lia)).
    simpl rev. rewrite !concat_deltas_app. simpl. rewrite Hd.
    rewrite !append_assoc. reflexivity.
  - injection Hl as <-. simpl. rewrite Hd, append_assoc. reflexivity.
Qed.

(** In a forest, reconstruct returns the deltas along the path from the
    root to the span. *)
Lemma reconstruct_path (id : string) :
  forest (find_node spans) parent_id -> is_Some (find_node spans id) ->
  exists l,
    path (find_node spans) parent_id id l
    /\ reconstruct spans id
       = Some (concat_deltas (find_node spans) (rev l ++ [id])).
Proof.
  intros Hf Hid. pose proof Hf as [Hres Hacyc].
  destruct (climb_total _ _ _ build_ids (size (build spans)) id Hacyc
              ltac:(rewrite build_ids_length; lia)) as [l Hl].
  exists l. split; [eapply climb_path; eassumption |].
  pose proof (path_length _ _ _ build_ids _ _ _ Hf Hid Hl) as Hlen.
  rewrite build_ids_length in Hlen.
  unfold reconstruct.
  rewrite (walk_climb (size (build spans)) _ id l "" Hres Hid Hl ltac:(lia)).
  rewrite append_nil_r. reflexivity.
Qed.

End Reconstruction.

Section ReconstructionComposition.

Import ReconstructionEngine.

(** C2: for a root a with delta "Hello " and its child b with delta
    "World", reconstruct(b) is "Hello World" and reconstruct(a) is
    "Hello "; and for every span of a forest, reconstruct returns the
    deltas of the spans on the path from the root to that span, root first
    and the span itself last, side by side, where a span without a delta
    contributes the empty string. *)
Theorem reconstruct_root_to_target
  (a b : Span) (spans : list Span) (id : string) :
  span_id a <> span_id b ->
  parent_id a = None -> parent_id b = Some (span_id a) ->
  delta a = "Hello " -> delta b = "World" ->
  forest (find_node spans) parent_id ->
  is_Some (find_node spans id) ->
  reconstruct [a; b] (span_id b) = Some "Hello World"
  /\ reconstruct [a; b] (span_id a) = Some "Hello "
  /\ (exists l,
        path (find_node spans) parent_id id l
        /\ reconstruct spans id
           = Some (concat_deltas (find_node spans)
                     (rev l ++ [id])))
  /\ (forall s : Span,
        attributes s !! "tracebrain.llm.new_content" = None -> delta s = "").
Proof.
  intros Hab Ha Hb Hda Hdb Hf Hid.
  assert (Hsize : size (build [a; b]) = 2%nat).
  { unfold build. simpl.
    rewrite map_size_insert_None
      by (rewrite lookup_insert_ne by congruence; apply lookup_empty).
    rewrite map_size_insert_None by apply lookup_empty.
    rewrite map_size_empty. reflexivity. }
  assert (Hla : build [a; b] !! span_id a = Some a)
    by (unfold build; simpl; apply lookup_insert_eq).
  assert (Hlb : build [a; b] !! span_id b = Some b).
  { unfold build; simpl. rewrite lookup_insert_ne by exact Hab.
    apply lookup_insert_eq. }
  split; [| split; [| split]].
  - unfold reconstruct. rewrite Hsize. simpl.
    rewrite Hlb, Hb, Hla, Ha, Hda, Hdb. reflexivity.
  - unfold reconstruct. rewrite Hsize. simpl.
    rewrite Hla, Ha, Hda. reflexivity.
  - apply reconstruct_path; assumption.
  - apply delta_absent.
Qed.

Lemma scenario_built_forest :
  forest (find_node scenario) parent_id.
Proof.
  apply (forest_check_sound _ _ _ (build_ids scenario)). reflexivity.
Qed.

Lemma reconstruct_root_to_target_witness :
  span_id hello <> span_id world
  /\ delta hello = "Hello " /\ delta world = "World"
  /\ forest (find_node scenario) parent_id
  /\ reconstruct [hello; world] (span_id world) = Some "Hello World"
  /\ reconstruct [hello; world] (span_id hello) = Some "Hello "
  /\ exists l,
       path (find_node scenario) parent_id "s3" l
       /\ reconstruct scenario "s3"
          = Some (concat_deltas (find_node scenario)
                    (rev l ++ ["s3"])).
Proof.
  assert (Hne : span_id hello <> span_id world) by discriminate.
  assert (Hs3 : is_Some (find_node scenario "s3"))
    by (eexists; reflexivity).
  pose proof (reconstruct_root_to_target hello world scenario "s3"
                Hne eq_refl eq_refl eq_refl eq_refl
                scenario_built_forest Hs3) as (H1 & H2 & H3 & _).
  split; [exact Hne |]. split; [reflexivity |]. split; [reflexivity |].
  split; [exact scenario_built_forest |].
  split; [exact H1 |]. split; [exact H2 | exact H3].
Defined.

(** The scenario of the specification: reconstruct(s3) is "42". *)
Example reconstruct_scenario :
  reconstruct scenario "s3" = Some "42"
  /\ reconstruct scenario "s1" = Some ""
  /\ reconstruct scenario "s4" = None.
Proof. vm_compute. repeat split. Qed.

End ReconstructionComposition.

(** ** The calendar *)

Section Calendar.

Import JSDate.

(** A year is followed by the next after 365 or 366 days. *)
Lemma DayFromYear_succ (y : Z) :
  DayFromYear (y + 1) = DayFromYear y + DaysInYear y.
Proof.
  unfold DayFromYear, DaysInYear, is_leap.
  destruct (Z.eqb_spec (y mod 4) 0), (Z.eqb_spec (y mod 100) 0),
    (Z.eqb_spec (y mod 400) 0); simpl; Z.div_mod_to_equations; lia.
Qed.

Lemma YearFromDay_spec (d : Z) :
  DayFromYear (YearFromDay d) <= d < DayFromYear (YearFromDay d + 1).
Proof.
  unfold YearFromDay.
  assert (H1 : DayFromYear (1970 + d * 400 / 146097 - 1) <= d)
    by (unfold DayFromYear; Z.div_mod_to_equations; lia).
  assert (H2 : d < DayFromYear (1970 + d * 400 / 146097 + 2))
    by (unfold DayFromYear; Z.div_mod_to_equations; lia).
  set (y := 1970 + d * 400 / 146097) in *.
  destruct (Z.ltb_spec d (DayFromYear y)).
  - replace (y - 1 + 1) with y by lia. lia.
  - destruct (Z.leb_spec (DayFromYear (y + 1)) d).
    + replace (y + 1 + 1) with (y + 2) by lia. lia.
    + lia.
Qed.

Lemma DayWithinYear_bounds (t : Z) :
  0 <= DayWithinYear t < DaysInYear (YearFromTime t).
Proof.
  unfold DayWithinYear, YearFromTime.
  pose proof (YearFromDay_spec (Day t)) as H.
  rewrite DayFromYear_succ in H. lia.
Qed.

Lemma month_of_day_spec (leap : bool) (d : Z) :
  0 <= d < (if leap then 366 else 365) ->
  let m := month_of_day leap d in
  0 <= m <= 11
  /\ days_before_month leap m <= d
     < days_before_month leap m + days_in_month leap m.
Proof.
  intros H m. subst m. destruct leap;
    cbv [month_of_day days_before_month];
    repeat match goal with
           | |- context [if ?a <? ?b then _ else _] =>
               destruct (Z.ltb_spec a b)
           end;
    cbv [days_in_month days_before_month Z.eqb Pos.eqb]; simpl; lia.
Qed.

Lemma MonthFromTime_range (t : Z) : 0 <= MonthFromTime t <= 11.
Proof.
  unfold MonthFromTime. apply month_of_day_spec.
  pose proof (DayWithinYear_bounds t) as H. unfold DaysInYear in H. exact H.
Qed.

Lemma DateFromTime_range (t : Z) :
  1 <= DateFromTime t
    <= days_in_month (is_leap (YearFromTime t)) (MonthFromTime t).
Proof.
  unfold DateFromTime, MonthFromTime.
  pose proof (DayWithinYear_bounds t) as H. unfold DaysInYear in H.
  pose proof (month_of_day_spec _ _ H) as [_ H']. cbv zeta in H'. lia.
Qed.

(** The day number of a date [k] days after that of [t]. *)
Lemma MakeDay_DateFromTime (t k : Z) :
  MakeDay (YearFromTime t) (MonthFromTime t) (DateFromTime t + k) = Day t + k.
Proof.
  pose proof (MonthFromTime_range t) as Hm.
  unfold MakeDay.
  rewrite (Z.div_small (MonthFromTime t) 12), (Z.mod_small (MonthFromTime t) 12)
    by lia.
  rewrite Z.add_0_r. unfold DateFromTime, DayWithinYear. lia.
Qed.

Lemma setDate_fixed (offset t days : Z) :
  let tz := fixed_zone offset in
  setDate tz t (getDate tz t - days) = t - days * msPerDay.
Proof.
  intros tz. unfold setDate, getDate, LocalTime, UTC. simpl.
  replace (DateFromTime (t + offset) - days)
    with (DateFromTime (t + offset) + - days) by lia.
  rewrite MakeDay_DateFromTime. unfold MakeDate, Day, TimeWithinDay, msPerDay.
  Z.div_mod_to_equations. lia.
Qed.

Lemma slice_toISOString (t : Z) :
  0 <= YearFromTime t <= 9999 ->
  slice_0_10 (toISOString t)
  = date_string (YearFromTime t) (MonthFromTime t + 1) (DateFromTime t).
Proof.
  intros H. unfold toISOString, year_string.
  destruct (Z.leb_spec 0 (YearFromTime t)); [|lia].
  destruct (Z.leb_spec (YearFromTime t) 9999); [|lia].
  generalize (YearFromTime t) (MonthFromTime t + 1) (DateFromTime t)
    (HourFromTime t) (MinFromTime t) (SecFromTime t) (msFromTime t).
  intros y m d hh mm ss ms. reflexivity.
Qed.

Lemma digit_of_digit_char (d : Z) :
  0 <= d <= 9 -> digit_of 10 (digit_char d) = Some d.
Proof.
  intros H. unfold digit_of, digit_char.
  rewrite nat_ascii_embedding by lia.
  replace (Z.of_nat (48 + Z.to_nat d)) with (48 + d) by lia.
  destruct (Z.leb_spec 48 (48 + d)); [|lia].
  destruct (Z.leb_spec (48 + d) 57); [|lia]. simpl.
  replace (48 + d - 48) with d by lia.
  destruct (Z.ltb_spec d 10); [reflexivity | lia].
Qed.

Lemma read_digits_digit_chars (ds : list Z) (acc : Z) (cnt : nat) :
  Forall (fun d => 0 <= d <= 9) ds ->
  read_digits 10 (map digit_char ds) acc cnt
  = (fold_left (fun a d => 10 * a + d) ds acc, (cnt + List.length ds)%nat, []).
Proof.
  intros H. revert acc cnt.
  induction H as [|d ds Hd _ IH]; intros acc cnt.
  - cbn [map fold_left List.length read_digits]. rewrite Nat.add_0_r.
    reflexivity.
  - cbn [map fold_left List.length]. rewrite read_digits_cons.
    rewrite (digit_of_digit_char d Hd), IH. do 2 f_equal. lia.
Qed.

Lemma read_fixed_digit_chars (ds : list Z) :
  Forall (fun d => 0 <= d <= 9) ds ->
  read_fixed (map digit_char ds)
  = Some (fold_left (fun a d => 10 * a + d) ds 0).
Proof.
  intros H. unfold read_fixed. rewrite (read_digits_digit_chars ds 0 0 H).
  cbn [Nat.add]. rewrite length_map, Nat.eqb_refl. reflexivity.
Qed.

Lemma read_fixed_4 (n : Z) :
  0 <= n <= 9999 ->
  read_fixed [digit_char (n / 10 / 10 / 10 mod 10);
              digit_char (n / 10 / 10 mod 10);
              digit_char (n / 10 mod 10); digit_char (n mod 10)] = Some n.
Proof.
  intros H.
  change (read_fixed
            (map digit_char
               [n / 10 / 10 / 10 mod 10; n / 10 / 10 mod 10; n / 10 mod 10;
                n mod 10]) = Some n).
  rewrite read_fixed_digit_chars
    by (repeat constructor; Z.div_mod_to_equations; lia).
  cbn [fold_left]. f_equal. Z.div_mod_to_equations. lia.
Qed.

Lemma read_fixed_2 (n : Z) :
  0 <= n <= 99 ->
  read_fixed [digit_char (n / 10 mod 10); digit_char (n mod 10)] = Some n.
Proof.
  intros H.
  change (read_fixed (map digit_char [n / 10 mod 10; n mod 10]) = Some n).
  rewrite read_fixed_digit_chars
    by (repeat constructor; Z.div_mod_to_equations; lia).
  cbn [fold_left]. f_equal. Z.div_mod_to_equations. lia.
Qed.

Lemma days_in_month_le_31 (leap : bool) (m : Z) :
  0 <= m <= 11 -> days_in_month leap m <= 31.
Proof.
  intros H.
  assert (Hm : m = 0 \/ m = 1 \/ m = 2 \/ m = 3 \/ m = 4 \/ m = 5 \/ m = 6
               \/ m = 7 \/ m = 8 \/ m = 9 \/ m = 10 \/ m = 11) by lia.
  destruct leap; repeat (destruct Hm as [->|Hm]); try subst m;
    vm_compute; discriminate.
Qed.

Lemma parse_date_string (y m d : Z) :
  0 <= y <= 9999 -> 1 <= m <= 12 ->
  1 <= d <= days_in_month (is_leap y) (m - 1) ->
  parse (date_string y m d) = Some (MakeDate (MakeDay y (m - 1) d) 0)
  /\ date_string y m d <> "".
Proof.
  intros Hy Hm Hd.
  pose proof (days_in_month_le_31 (is_leap y) (m - 1) ltac:(lia)) as H31.
  split; [| discriminate].
  unfold parse.
  change (list_ascii_of_string (date_string y m d))
    with [digit_char (y / 10 / 10 / 10 mod 10);
          digit_char (y / 10 / 10 mod 10);
          digit_char (y / 10 mod 10); digit_char (y mod 10); "-"%char;
          digit_char (m / 10 mod 10); digit_char (m mod 10); "-"%char;
          digit_char (d / 10 mod 10); digit_char (d mod 10)].
  cbv iota beta.
  rewrite (read_fixed_4 y Hy), (read_fixed_2 m), (read_fixed_2 d) by lia.
  destruct (Z.leb_spec 1 m); [|lia].
  destruct (Z.leb_spec m 12); [|lia].
  destruct (Z.leb_spec 1 d); [|lia].
  destruct (Z.leb_spec d 31); [|lia].
  reflexivity.
Qed.

Lemma parse_slice_toISOString (t : Z) :
  0 <= YearFromTime t <= 9999 ->
  parse (slice_0_10 (toISOString t)) = Some (Day t * msPerDay)
  /\ slice_0_10 (toISOString t) <> "".
Proof.
  intros H. rewrite (slice_toISOString t H).
  pose proof (MonthFromTime_range t) as Hm.
  pose proof (DateFromTime_range t) as Hd.
  destruct (parse_date_string (YearFromTime t) (MonthFromTime t + 1)
              (DateFromTime t) H ltac:(lia)) as [Hp Hne].
  { replace (MonthFromTime t + 1 - 1) with (MonthFromTime t) by lia. exact Hd. }
  split; [| exact Hne]. rewrite Hp.
  replace (MonthFromTime t + 1 - 1) with (MonthFromTime t) by lia.
  pose proof (MakeDay_DateFromTime t 0) as E. rewrite !Z.add_0_r in E.
  rewrite E. unfold MakeDate. f_equal. lia.
Qed.

End Calendar.

(** ** Date presets (C10) *)

Section Presets.

Import JSDate TraceFiltersPanel FiltersPanel.

Lemma truthy_str_true (s : string) : s <> "" -> truthy_str s = true.
Proof.
  intros H. unfold truthy_str.
  destruct (String.eqb_spec s ""); [contradiction | reflexivity].
Qed.

(** A range whose ends are [days] days apart, for the days of a preset,
    makes that preset the active one. *)
Lemma activeDatePreset_days_apart (f : TraceFilters) (e s : Z)
  (label : string) (days : Z) :
  In (label, days) DATE_PRESETS ->
  startTime f <> "" -> endTime f <> "" ->
  parse (endTime f) = Some e -> parse (startTime f) = Some s ->
  e - s = days * msPerDay ->
  activeDatePreset parse f = Some label.
Proof.
  intros Hin Hs He Hpe Hps Hdiff.
  unfold activeDatePreset, diffDays.
  rewrite (truthy_str_true _ Hs), (truthy_str_true _ He), Hpe, Hps, Hdiff.
  cbn [negb orb].
  repeat (destruct Hin as [[= <- <-]|Hin]; [vm_compute; reflexivity |]).
  destruct Hin.
Qed.

Lemma DayFromYear_mono (y1 y2 : Z) :
  y1 <= y2 -> DayFromYear y1 <= DayFromYear y2.
Proof. intros H. unfold DayFromYear. Z.div_mod_to_equations. lia. Qed.

(** The four-digit years. *)
Lemma YearFromTime_four_digits (t : Z) :
  -62167219200000 <= t < 253402300800000 -> 0 <= YearFromTime t <= 9999.
Proof.
  intros H. unfold YearFromTime.
  pose proof (YearFromDay_spec (Day t)) as Hy.
  assert (Hd : DayFromYear 0 <= Day t < DayFromYear 10000).
  { change (DayFromYear 0) with (-719528).
    change (DayFromYear 10000) with 2932897.
    unfold Day, msPerDay. Z.div_mod_to_equations. lia. }
  split.
  - destruct (Z.le_gt_cases 0 (YearFromDay (Day t))) as [|Hneg]; [assumption|].
    pose proof (DayFromYear_mono (YearFromDay (Day t) + 1) 0 ltac:(lia)). lia.
  - destruct (Z.le_gt_cases (YearFromDay (Day t)) 9999) as [|Hbig]; [assumption|].
    pose proof (DayFromYear_mono 10000 (YearFromDay (Day t)) ltac:(lia)). lia.
Qed.

(** In a zone at a constant offset from UTC, and for a clock that reads
    the same instant twice within the years 1 to 9999, every preset is the
    active one after it has been applied. *)
Lemma applyPreset_fixed_zone_round_trip
  (f : TraceFilters) (offset now : Z) (label : string) (days : Z) :
  In (label, days) DATE_PRESETS ->
  -62135596800000 <= now < 253402300800000 ->
  let f' := applyPreset f (fixed_zone offset) now now days in
  startTime f' <> "" /\ endTime f' <> ""
  /\ activeDatePreset parse f' = Some label.
Proof.
  intros Hin Hnow f'.
  assert (Hdays : 0 <= days <= 365).
  { clear -Hin. repeat (destruct Hin as [[= <- <-]|Hin]; [lia |]). destruct Hin. }
  assert (Hy : 0 <= YearFromTime now <= 9999)
    by (apply YearFromTime_four_digits; lia).
  assert (Hy' : 0 <= YearFromTime (now - days * msPerDay) <= 9999)
    by (apply YearFromTime_four_digits; unfold msPerDay; lia).
  destruct (parse_slice_toISOString now Hy) as [Hpe Hne].
  destruct (parse_slice_toISOString _ Hy') as [Hps Hns].
  assert (Hday : Day (now - days * msPerDay) = Day now - days).
  { unfold Day, msPerDay. Z.div_mod_to_equations. lia. }
  subst f'. unfold applyPreset.
  destruct (Z.eqb_spec days 0) as [->|Hne0].
  - cbn [set spread startTime endTime default p_startTime p_endTime
         from_option].
    split; [exact Hne | split; [exact Hne |]].
    eapply activeDatePreset_days_apart; try exact Hin;
      cbn [startTime endTime set spread default p_startTime p_endTime
           from_option];
      try eassumption. lia.
  - rewrite setDate_fixed.
    split; [exact Hns | split; [exact Hne |]].
    eapply activeDatePreset_days_apart; try exact Hin;
      cbn [startTime endTime set spread default p_startTime p_endTime
           from_option];
      try eassumption. rewrite Hday. lia.
Qed.

(** C10: on 2 November 2026 at 19:30 in New York, the day after the clocks
    went back, applying the preset "Last week" sets the range from
    2026-10-26 to 2026-11-03, which is eight days long, so that no preset
    is active afterwards, and not "Last week". *)
Theorem applyPreset_last_week_not_active :
  let f := applyPreset DEFAULT_TRACE_FILTERS new_york
             monday_evening monday_evening 7 in
  In ("Last week", 7) DATE_PRESETS
  /\ JSDate.toISOString (JSDate.LocalTime new_york monday_evening)
     = "2026-11-02T19:30:00.000Z"
  /\ startTime f = "2026-10-26"
  /\ endTime f = "2026-11-03"
  /\ diffDays parse f = of_Z 8
  /\ activeDatePreset parse f = None.
Proof. vm_compute. intuition. Qed.

(** At the same instant in a zone without clock changes, every preset is
    active after it has been applied. *)
Example applyPreset_utc_round_trip :
  forallb (fun p =>
             bool_decide
               (activeDatePreset parse
                  (applyPreset DEFAULT_TRACE_FILTERS (fixed_zone 0)
                     monday_evening monday_evening (snd p))
                = Some (fst p)))
          DATE_PRESETS = true.
Proof. vm_compute. reflexivity. Qed.

End Presets.

(** ** The order on numbers, continued *)

Section MoreOrder.

Lemma le_lt_finite_trans (sx sy sz : bool) (mx my mz : positive)
  (ex ey ez : Z) :
  le (S754_finite sx mx ex) (S754_finite sy my ey) = true ->
  lt (S754_finite sy my ey) (S754_finite sz mz ez) = true ->
  lt (S754_finite sx mx ex) (S754_finite sz mz ez) = true.
Proof.
  unfold lt, le, SFltb, SFleb, SFcompare.
  change (Pos.compare_cont Eq mx my) with (mx ?= my)%positive.
  change (Pos.compare_cont Eq my mz) with (my ?= mz)%positive.
  change (Pos.compare_cont Eq mx mz) with (mx ?= mz)%positive.
  destruct sx, sy, sz; try congruence;
    destruct (Z.compare_spec ex ey), (Z.compare_spec ey ez),
             (Z.compare_spec ex ez);
    try congruence; try lia;
    destruct (Pos.compare_spec mx my), (Pos.compare_spec my mz),
             (Pos.compare_spec mx mz);
    simpl; try congruence; try lia.
Qed.

Lemma le_lt_trans (x y z : number) :
  le x y = true -> lt y z = true -> lt x z = true.
Proof.
  destruct x as [sx|sx| |sx mx ex], y as [sy|sy| |sy my ey],
           z as [sz|sz| |sz mz ez];
    try apply le_lt_finite_trans;
    unfold lt, le, SFltb, SFleb; simpl;
    repeat match goal with b : bool |- _ => destruct b end;
    congruence.
Qed.

Lemma le_finite_trans (sx sy sz : bool) (mx my mz : positive) (ex ey ez : Z) :
  le (S754_finite sx mx ex) (S754_finite sy my ey) = true ->
  le (S754_finite sy my ey) (S754_finite sz mz ez) = true ->
  le (S754_finite sx mx ex) (S754_finite sz mz ez) = true.
Proof.
  unfold le, SFleb, SFcompare.
  change (Pos.compare_cont Eq mx my) with (mx ?= my)%positive.
  change (Pos.compare_cont Eq my mz) with (my ?= mz)%positive.
  change (Pos.compare_cont Eq mx mz) with (mx ?= mz)%positive.
  destruct sx, sy, sz; try congruence;
    destruct (Z.compare_spec ex ey), (Z.compare_spec ey ez),
             (Z.compare_spec ex ez);
    try congruence; try lia;
    destruct (Pos.compare_spec mx my), (Pos.compare_spec my mz),
             (Pos.compare_spec mx mz);
    simpl; try congruence; try lia.
Qed.

Lemma le_trans (x y z : number) :
  le x y = true -> le y z = true -> le x z = true.
Proof.
  destruct x as [sx|sx| |sx mx ex], y as [sy|sy| |sy my ey],
           z as [sz|sz| |sz mz ez];
    try apply le_finite_trans;
    unfold le, SFleb; simpl;
    repeat match goal with b : bool |- _ => destruct b end;
    congruence.
Qed.

Lemma lt_nan_r (x : number) : lt x NaN = false.
Proof. destruct x; reflexivity. Qed.

End MoreOrder.

(** ** Severity of a confidence *)

Section SeverityFacts.

(** X1: both bars are monotone: a confidence that is not smaller never
    gets a lower severity, in the order error, warning, success. *)
Theorem severity_monotone (c1 c2 : number) :
  le c1 c2 = true ->
  (severity_rank (ConfidenceIndicator.progressColor c1)
   <= severity_rank (ConfidenceIndicator.progressColor c2))%nat
  /\ (severity_rank (AIEvaluation.bgcolor c1)
      <= severity_rank (AIEvaluation.bgcolor c2))%nat.
Proof.
  intros H. split.
  - unfold ConfidenceIndicator.progressColor.
    pose proof (le_lt_trans c1 c2 (decimal 2 1) H) as H2.
    pose proof (le_lt_trans c1 c2 (decimal 8 1) H) as H8.
    pose proof (lt_02_05 c1) as Ha. pose proof (lt_05_08 c1) as Hb.
    destruct (lt c2 (decimal 2 1)); [rewrite (H2 eq_refl); simpl; lia |].
    destruct (lt c2 (decimal 8 1)).
    + rewrite (H8 eq_refl). destruct (lt c1 (decimal 2 1)); simpl; lia.
    + destruct (lt c1 (decimal 2 1)), (lt c1 (decimal 8 1)); simpl; lia.
  - unfold AIEvaluation.bgcolor, ge. change SFleb with le.
    pose proof (fun k => le_trans k c1 c2) as Ht.
    destruct (le (decimal 8 1) c1) eqn:E8.
    + rewrite (Ht _ E8 H). simpl. lia.
    + destruct (le (decimal 5 1) c1) eqn:E5.
      * rewrite (Ht _ E5 H). destruct (le (decimal 8 1) c2); simpl; lia.
      * simpl. lia.
Qed.

Lemma severity_monotone_witness :
  le (decimal 3 1) (decimal 9 1) = true
  /\ (severity_rank (ConfidenceIndicator.progressColor (decimal 3 1))
      <= severity_rank (ConfidenceIndicator.progressColor (decimal 9 1)))%nat
  /\ (severity_rank (AIEvaluation.bgcolor (decimal 3 1))
      <= severity_rank (AIEvaluation.bgcolor (decimal 9 1)))%nat.
Proof.
  split; [reflexivity |].
  exact (severity_monotone (decimal 3 1) (decimal 9 1) eq_refl).
Defined.

Lemma lt_08_not_02 (c : number) :
  lt c (decimal 8 1) = false -> lt c (decimal 2 1) = false.
Proof.
  intros H. destruct (lt c (decimal 2 1)) eqn:E; [|reflexivity].
  rewrite (lt_05_08 c (lt_02_05 c E)) in H. discriminate.
Qed.

(** X2: the indicator of the dashboard is green exactly for a confidence
    that is at least 0.8 or is NaN, and red exactly below 0.2; the bar of
    the evaluation panel is green exactly from 0.8 and red exactly for a
    confidence that is below 0.5 or is NaN.  So a confidence that is not a
    number is shown as a success by the one and as an error by the other. *)
Theorem severity_ranges (c : number) :
  (ConfidenceIndicator.progressColor c = error <-> lt c (decimal 2 1) = true)
  /\ (ConfidenceIndicator.progressColor c = success
      <-> ge c (decimal 8 1) = true \/ is_nan c = true)
  /\ (AIEvaluation.bgcolor c = success <-> ge c (decimal 8 1) = true)
  /\ (AIEvaluation.bgcolor c = error
      <-> lt c (decimal 5 1) = true \/ is_nan c = true).
Proof.
  unfold ConfidenceIndicator.progressColor, AIEvaluation.bgcolor.
  destruct (is_nan c) eqn:Hn.
  - destruct c; try discriminate. vm_compute.
    repeat split; intros; auto; try discriminate;
      repeat match goal with H : _ \/ _ |- _ => destruct H end;
      try discriminate.
  - pose proof (lt_08_not_02 c) as H82.
    pose proof (lt_05_08 c) as H58.
    rewrite !ge_not_lt by (assumption || reflexivity).
    destruct (lt c (decimal 2 1)), (lt c (decimal 5 1)),
      (lt c (decimal 8 1)); simpl;
      try (specialize (H82 eq_refl)); try (specialize (H58 eq_refl));
      try discriminate;
      repeat split; intros; auto; try discriminate;
      repeat match goal with H : _ \/ _ |- _ => destruct H end;
      try discriminate.
Qed.

End SeverityFacts.

(** ** The stars of a rating *)

Section Stars.

Import AIEvaluation.

Lemma star_below (j k : Z) (rating : number) :
  le (of_Z j) (of_Z k) = true ->
  le (of_Z k) rating = true -> le (of_Z j) rating = true.
Proof. apply le_trans. Qed.

(** X3: the filled stars are the first ones: whatever the rating (NaN and
    the infinities included), some number n of stars from 0 to 5 is filled
    and it is the first n; for a whole rating n from 0 to 5 exactly n stars
    are filled, and for NaN none. *)
Theorem stars_are_a_prefix (rating : number) :
  (exists n : nat,
      (n <= 5)%nat
      /\ stars rating = (replicate n true ++ replicate (5 - n) false)%list)
  /\ (forall n : Z,
        0 <= n <= 5 ->
        stars (of_Z n)
        = (replicate (Z.to_nat n) true
           ++ replicate (5 - Z.to_nat n) false)%list)
  /\ stars NaN = replicate 5 false.
Proof.
  split; [| split].
  - unfold stars. cbn [map].
    pose proof (star_below 1 2 rating eq_refl) as H12.
    pose proof (star_below 2 3 rating eq_refl) as H23.
    pose proof (star_below 3 4 rating eq_refl) as H34.
    pose proof (star_below 4 5 rating eq_refl) as H45.
    destruct (le (of_Z 1) rating), (le (of_Z 2) rating),
      (le (of_Z 3) rating), (le (of_Z 4) rating), (le (of_Z 5) rating);
      try (specialize (H12 eq_refl)); try (specialize (H23 eq_refl));
      try (specialize (H34 eq_refl)); try (specialize (H45 eq_refl));
      try discriminate;
      first [ exists 5%nat; split; [lia | reflexivity]
            | exists 4%nat; split; [lia | reflexivity]
            | exists 3%nat; split; [lia | reflexivity]
            | exists 2%nat; split; [lia | reflexivity]
            | exists 1%nat; split; [lia | reflexivity]
            | exists 0%nat; split; [lia | reflexivity] ].
  - intros n Hn.
    assert (E : n = 0 \/ n = 1 \/ n = 2 \/ n = 3 \/ n = 4 \/ n = 5) by lia.
    repeat (destruct E as [->|E]); try subst n; reflexivity.
  - reflexivity.
Qed.

End Stars.

(** ** More on climbing *)

Section ClimbCycles.

Variable look : string -> option Span.
Variable link : Span -> option string.
Variable ids : list string.
Hypothesis look_ids : forall id s, look id = Some s -> id ∈ ids.

(** A climb that ends passes through climbs that end. *)
Lemma climb_ancestor_ends (fuel : nat) (id a : string) (l : list string) :
  climb look link fuel id = Some l -> ancestor look link id a ->
  exists fuel' l', climb look link fuel' a = Some l'.
Proof.
  revert id l. induction fuel as [|fuel IH]; intros id l Hl Ha;
    rewrite climb_eq in Hl;
    rewrite ancestor_inv in Ha; destruct Ha as (p & (s & Hs & Hp) & Ha);
    rewrite Hs, Hp in Hl; [discriminate |].
  destruct (climb look link fuel p) as [l'|] eqn:Hc; [|discriminate].
  destruct Ha as [-> | Ha]; [eauto | eapply IH; eassumption].
Qed.

Lemma climb_on_cycle (fuel : nat) (id : string) :
  on_cycle look link id -> climb look link fuel id = None.
Proof.
  intros (a & Ha & Hcyc).
  destruct (climb look link fuel id) as [l|] eqn:Hl; [exfalso | reflexivity].
  destruct Ha as [-> | Ha].
  - exact (climb_irrefl _ _ _ _ _ Hl Hcyc).
  - destruct (climb_ancestor_ends _ _ _ _ Hl Ha) as (f' & l' & Hl').
    exact (climb_irrefl _ _ _ _ _ Hl' Hcyc).
Qed.

Lemma climb_fuel_local (fuel : nat) (id : string) (seen : list string) :
  ~ on_cycle look link id ->
  NoDup seen ->
  (forall x, x ∈ seen -> x ∈ ids /\ ancestor look link x id) ->
  (List.length ids <= List.length seen + fuel)%nat ->
  is_Some (climb look link fuel id).
Proof.
  revert id seen.
  induction fuel as [|fuel IH]; intros id seen Hacyc Hnd Hseen Hlen;
    rewrite climb_eq;
    destruct (look id) as [s|] eqn:Hs; try (eexists; reflexivity);
    destruct (link s) as [p|] eqn:Hp; try (eexists; reflexivity).
  all: assert (Hpar : parent_of look link id p)
    by (eapply parent_of_intro; eassumption).
  all: assert (Hfresh : id ∉ seen)
    by (intros Hin; apply Hacyc; exists id; split;
        [left; reflexivity | apply (Hseen id Hin)]).
  all: assert (Hnd' : NoDup (id :: seen)) by (constructor; assumption).
  all: assert (Hsub : (id :: seen) ⊆+ ids).
  1, 3: apply NoDup_submseteq; [exact Hnd' |];
        intros x [->|Hx]%elem_of_cons; [eapply look_ids, Hs | apply Hseen, Hx].
  all: apply submseteq_length in Hsub; simpl in Hsub.
  - lia.
  - destruct (IH p (id :: seen)) as [l' Hl']; try assumption.
    + intros (a & Ha & Hcyc). apply Hacyc. exists a. split; [| exact Hcyc].
      right. destruct Ha as [-> | Ha];
        [apply anc_parent, Hpar | eapply anc_up; eassumption].
    + intros x [->|Hx]%elem_of_cons.
      * split; [eapply look_ids, Hs | apply anc_parent, Hpar].
      * split; [apply Hseen, Hx |].
        eapply ancestor_trans; [apply Hseen, Hx | apply anc_parent, Hpar].
    + simpl. lia.
    + rewrite Hl'. eexists; reflexivity.
Qed.

Lemma climb_ends_iff (id : string) :
  (exists fuel l, climb look link fuel id = Some l)
  <-> ~ on_cycle look link id.
Proof.
  split.
  - intros (fuel & l & Hl) Hcyc.
    rewrite (climb_on_cycle fuel id Hcyc) in Hl. discriminate.
  - intros H.
    destruct (climb_fuel_local (List.length ids) id [] H) as [l Hl].
    + constructor.
    + intros x Hx. inversion Hx.
    + simpl. lia.
    + eauto.
Qed.

End ClimbCycles.

(** ** The walk on stores that are no forests *)

Section WalkEnds.

Import TraceVisualizer.

(** X4: the walk from a span ends exactly when the parent chain of the span
    does not come back to one of its spans; on a chain that does, the loop
    runs for ever, whatever the number of iterations allowed. *)
Theorem walk_ends_iff_no_cycle (allSpans : list Span) (id : string)
  (nodes : gset string) :
  ((exists fuel r,
       expand_loop fuel allSpans (find_span allSpans id) nodes = Some r)
   <-> ~ on_cycle (find_span allSpans) truthy_parent id)
  /\ (on_cycle (find_span allSpans) truthy_parent id ->
      forall fuel,
        expand_loop fuel allSpans (find_span allSpans id) nodes = None).
Proof.
  split.
  - rewrite <- (climb_ends_iff _ _ _ (find_span_ids allSpans)). split.
    + intros (fuel & r & Hr). rewrite expand_loop_climb in Hr.
      destruct (climb (find_span allSpans) truthy_parent fuel id) as [l|] eqn:E;
        [eauto | discriminate].
    + intros (fuel & l & Hl). exists fuel. rewrite expand_loop_climb, Hl.
      simpl. eauto.
  - intros Hcyc fuel. rewrite expand_loop_climb.
    rewrite (climb_on_cycle _ _ fuel id Hcyc). reflexivity.
Qed.

End WalkEnds.

(** ** The expansion state and the selection of the visualizer *)

Section VisualizerState.

Import TraceVisualizer.

(** X5: toggling a node flips its membership in the set of expanded nodes
    and leaves every other node as it was; toggling twice restores the
    set. *)
Theorem toggleExpand_flips_one (expandedNodes : gset string) (id : string) :
  (id ∈ toggleExpand expandedNodes id <-> id ∉ expandedNodes)
  /\ (forall a, a <> id ->
        (a ∈ toggleExpand expandedNodes id <-> a ∈ expandedNodes))
  /\ toggleExpand (toggleExpand expandedNodes id) id = expandedNodes.
Proof.
  assert (Hin : id ∈ toggleExpand expandedNodes id <-> id ∉ expandedNodes).
  { unfold toggleExpand. case_bool_decide as H.
    - rewrite elem_of_difference, elem_of_singleton. tauto.
    - rewrite elem_of_union, elem_of_singleton. tauto. }
  assert (Hout : forall a, a <> id ->
            (a ∈ toggleExpand expandedNodes id <-> a ∈ expandedNodes)).
  { intros a Ha. unfold toggleExpand. case_bool_decide as H.
    - rewrite elem_of_difference, elem_of_singleton. tauto.
    - rewrite elem_of_union, elem_of_singleton. tauto. }
  repeat split; try apply Hin; try apply Hout; try assumption.
  apply set_eq. intros a. destruct (decide (a = id)) as [->|Ha].
  - pose proof (Hin' := Hin). unfold toggleExpand at 1.
    case_bool_decide as H.
    + rewrite elem_of_difference, elem_of_singleton.
      apply Hin in H. destruct (decide (id ∈ expandedNodes)); tauto.
    + rewrite elem_of_union, elem_of_singleton.
      destruct (decide (id ∈ expandedNodes)) as [Hd|Hd]; [tauto |].
      exfalso. apply H, Hin, Hd.
  - unfold toggleExpand at 1. case_bool_decide as H.
    + rewrite elem_of_difference, elem_of_singleton. rewrite (Hout a Ha). tauto.
    + rewrite elem_of_union, elem_of_singleton. rewrite (Hout a Ha). tauto.
Qed.

Lemma elem_of_trace_ids (traces : list Trace) (a : string) :
  a ∈ (list_to_set (map trace_id traces) : gset string)
  <-> exists t, t ∈ traces /\ trace_id t = a.
Proof.
  rewrite elem_of_list_to_set.
  change (map trace_id traces) with (trace_id <$> traces).
  rewrite list_elem_of_fmap. split.
  - intros (t & -> & Ht). eauto.
  - intros (t & Ht & <-). eauto.
Qed.

Lemma forest_no_cycle (allSpans : list Span) (id : string) :
  forest (find_span allSpans) truthy_parent ->
  ~ on_cycle (find_span allSpans) truthy_parent id.
Proof. intros [_ Hacyc] (a & _ & Ha). exact (Hacyc a Ha). Qed.

(** Off a cycle, the loop ends within as many iterations as there are spans
    and adds the proper ancestors. *)
Lemma expand_loop_exact (fuel : nat) (allSpans : list Span) (id : string)
  (nodes : gset string) :
  ~ on_cycle (find_span allSpans) truthy_parent id ->
  (List.length allSpans <= fuel)%nat ->
  exists r,
    expand_loop fuel allSpans (find_span allSpans id) nodes = Some r
    /\ forall a, a ∈ r
         <-> a ∈ nodes \/ ancestor (find_span allSpans) truthy_parent id a.
Proof.
  intros Hcyc Hfuel.
  destruct (climb_fuel_local _ _ _ (find_span_ids allSpans) fuel id [] Hcyc)
    as [l Hl].
  - constructor.
  - intros x Hx. inversion Hx.
  - unfold span_ids. rewrite length_map. simpl. lia.
  - exists (list_to_set l ∪ nodes). split.
    + rewrite expand_loop_climb, Hl. reflexivity.
    + intros a. rewrite elem_of_union, elem_of_list_to_set.
      rewrite (climb_ancestors _ _ _ _ _ Hl). tauto.
Qed.

(** X6: on a non-empty list of traces, when the parent chain of the
    preselected span does not come back to one of its spans, the effect ends
    within as many iterations as there are spans and replaces the set of
    expanded nodes, whatever it held, by the trace ids together with the
    proper ancestors of the preselected span; without a preselected span
    (null or the empty string) the new set holds the trace ids only. *)
Theorem expandEffect_expands_traces_and_ancestors
  (fuel : nat) (traces : list Trace) (preselectedSpan : option string)
  (expandedNodes : gset string) :
  traces <> [] ->
  (forall id, truthy_id preselectedSpan = Some id ->
     ~ on_cycle (find_span (flat_map spans traces)) truthy_parent id) ->
  (List.length (flat_map spans traces) <= fuel)%nat ->
  exists r,
    expandEffect fuel traces preselectedSpan expandedNodes = Some r
    /\ forall a, a ∈ r <->
          (exists t, t ∈ traces /\ trace_id t = a)
          \/ (exists id, truthy_id preselectedSpan = Some id
                /\ ancestor (find_span (flat_map spans traces))
                     truthy_parent id a).
Proof.
  intros Hne Hcyc Hfuel.
  assert (Heff : expandEffect fuel traces preselectedSpan expandedNodes
                 = expandAncestors fuel (flat_map spans traces)
                     preselectedSpan (list_to_set (map trace_id traces))).
  { unfold expandEffect. destruct traces; [congruence | reflexivity]. }
  rewrite Heff. unfold expandAncestors, truthy_id in *.
  destruct preselectedSpan as [id|]; [destruct (truthy_str id) |].
  - destruct (expand_loop_exact fuel (flat_map spans traces) id
                (list_to_set (map trace_id traces)) (Hcyc id eq_refl) Hfuel)
      as (r & Hr & Hmem).
    exists r. split; [exact Hr |]. intros a.
    rewrite Hmem, elem_of_trace_ids. split.
    + intros [H|H]; [left; exact H | right; eauto].
    + intros [H|(id' & [= <-] & H)]; [left; exact H | right; exact H].
  - eexists. split; [reflexivity |]. intros a. rewrite elem_of_trace_ids.
    split; [tauto | intros [H|(id' & Hid & _)]; [exact H | discriminate]].
  - eexists. split; [reflexivity |]. intros a. rewrite elem_of_trace_ids.
    split; [tauto | intros [H|(id' & Hid & _)]; [exact H | discriminate]].
Qed.

Lemma expandEffect_expands_traces_and_ancestors_witness :
  [scenario_trace] <> []
  /\ (forall id, truthy_id (Some "s3") = Some id ->
       ~ on_cycle (find_span (flat_map spans [scenario_trace]))
           truthy_parent id)
  /\ (List.length (flat_map spans [scenario_trace]) <= 3)%nat
  /\ exists r,
       expandEffect 3 [scenario_trace] (Some "s3") {[ "stale" ]} = Some r
       /\ forall a, a ∈ r <->
             (exists t, t ∈ [scenario_trace] /\ trace_id t = a)
             \/ (exists id, truthy_id (Some "s3") = Some id
                   /\ ancestor (find_span (flat_map spans [scenario_trace]))
                        truthy_parent id a).
Proof.
  assert (H1 : [scenario_trace] <> []) by discriminate.
  assert (H2 : forall id, truthy_id (Some "s3") = Some id ->
             ~ on_cycle (find_span (flat_map spans [scenario_trace]))
                 truthy_parent id).
  { intros id _. apply forest_no_cycle.
    apply (forest_check_sound _ _ _
             (find_span_ids (flat_map spans [scenario_trace]))).
    reflexivity. }
  assert (H3 : (List.length (flat_map spans [scenario_trace]) <= 3)%nat)
    by (simpl; lia).
  split; [exact H1 | split; [exact H2 | split; [exact H3 |]]].
  exact (expandEffect_expands_traces_and_ancestors 3 [scenario_trace]
           (Some "s3") {[ "stale" ]} H1 H2 H3).
Defined.

(** X7: the selection on load.  With a preselected span the pane shows the
    first span that has that id, or the placeholder when there is none, and
    never a trace; without one (null or the empty string) it shows the first
    trace, or the placeholder when there are no traces. *)
Theorem initial_view (parseLLMContent : JsVal -> option TraceDetails.Parsed)
  (traces : list Trace) (preselectedSpan : option string) :
  let sel := initialSelection traces preselectedSpan in
  TraceDetails.TraceDetails parseLLMContent
    (selectedSpan traces sel) (selectedTrace traces sel)
  = match truthy_id preselectedSpan with
    | Some id =>
        match find_span (flat_map spans traces) id with
        | Some span =>
            TraceDetails.SpanView
              (TraceDetails.spanChildren parseLLMContent span)
        | None => TraceDetails.Placeholder
        end
    | None =>
        match traces with
        | t :: _ =>
            TraceDetails.TraceView (trace_id t)
              (TraceDetails.evaluationPanel t)
        | [] => TraceDetails.Placeholder
        end
    end.
Proof.
  unfold initialSelection, selectedSpan, selectedTrace,
    TraceDetails.TraceDetails. simpl.
  destruct (truthy_id preselectedSpan) as [id|]; simpl.
  - destruct (find_span (flat_map spans traces) id); reflexivity.
  - destruct traces as [|t ts]; simpl; [reflexivity |].
    rewrite String.eqb_refl. reflexivity.
Qed.

(** X8: selecting a node shows it by its kind, not by its id alone.  The
    pane shows a trace only for a selection of kind trace and a span only
    for one of kind span: selecting as a span an id that only a trace has,
    or as a trace an id that only a span has, shows the placeholder. *)
Theorem selection_shows_its_kind
  (parseLLMContent : JsVal -> option TraceDetails.Parsed)
  (traces : list Trace) (id : string) :
  let view type :=
    TraceDetails.TraceDetails parseLLMContent
      (selectedSpan traces (handleSelect id type))
      (selectedTrace traces (handleSelect id type)) in
  (view span_type = TraceDetails.Placeholder
   <-> find_span (flat_map spans traces) id = None)
  /\ (view trace_type = TraceDetails.Placeholder
      <-> forall t, t ∈ traces -> trace_id t <> id)
  /\ (forall t, t ∈ traces -> trace_id t = id ->
       exists t', t' ∈ traces /\ trace_id t' = id
         /\ view trace_type
            = TraceDetails.TraceView id (TraceDetails.evaluationPanel t'))
  /\ (forall tid e, view span_type <> TraceDetails.TraceView tid e)
  /\ (forall cs, view trace_type <> TraceDetails.SpanView cs).
Proof.
  unfold handleSelect, selectedSpan, selectedTrace,
    TraceDetails.TraceDetails. simpl.
  repeat split.
  - destruct (find_span (flat_map spans traces) id); [discriminate | reflexivity].
  - intros ->. reflexivity.
  - destruct (List.find _ traces) as [t'|] eqn:E; [discriminate |].
    intros _ t Ht Hid. apply list_elem_of_In in Ht.
    pose proof (find_none _ _ E t Ht) as Hn. simpl in Hn.
    apply String.eqb_neq in Hn. contradiction.
  - intros H. destruct (List.find _ traces) as [t'|] eqn:E; [| reflexivity].
    apply find_some in E as [Hin Heq]. apply String.eqb_eq in Heq.
    exfalso. apply (H t'); [apply list_elem_of_In, Hin | exact Heq].
  - intros t Ht Hid.
    destruct (List.find _ traces) as [t'|] eqn:E.
    + apply find_some in E as [Hin Heq]. apply String.eqb_eq in Heq.
      exists t'. split; [apply list_elem_of_In, Hin |].
      split; [exact Heq | rewrite Heq; reflexivity].
    + apply list_elem_of_In in Ht.
      pose proof (find_none _ _ E t Ht) as Hn. simpl in Hn.
      apply String.eqb_neq in Hn. contradiction.
  - intros tid e. destruct (find_span (flat_map spans traces) id); discriminate.
  - intros cs. destruct (List.find _ traces); discriminate.
Qed.

End VisualizerState.

(** ** The details pane *)

Section DetailsPane.

Import SpanUtils TraceDetails.

Variable parseLLMContent : JsVal -> option Parsed.

Lemma strict_eq_str_true (v : JsVal) (s : string) :
  strict_eq_str v s = true <-> v = JStr s.
Proof.
  destruct v; simpl; try (split; [discriminate | discriminate]).
  rewrite String.eqb_eq. split; [intros ->; reflexivity | intros [= ->]; reflexivity].
Qed.

(** X10: what the pane lists for a span of each type of the schema, before
    the token usage bar.  A tool execution always lists Tool, Input and
    Output, read from the tool keys, whether they are set or not; an
    inference lists Input and Output from the inference keys, each only
    when its value is truthy (and Input only when it parses); a user
    request lists the system prompt alone.  Every item carries the error
    flag of the span. *)
Theorem spanChildren_by_type (span : Span) (t : SpanType) :
  spanGetType span = JStr (span_type_name t) ->
  let a := attributes span in
  let e := spanHasError span in
  spanChildren parseLLMContent span
  = ([SpanContent "System Prompt" "System" (prop a "system_prompt") e]
     ++ match t with
        | user_request => []
        | tool_execution =>
            [SpanContent "Tool" "Tool" (prop a "tracebrain.tool.name") e;
             SpanContent "Input" "AI" (prop a "tracebrain.tool.input") e;
             SpanContent "Output" "Tool" (prop a "tracebrain.tool.output") e]
        | llm_inference =>
            and_render NumberText (prop a "tracebrain.llm.new_content")
              match parseLLMContent (prop a "tracebrain.llm.new_content") with
              | Some parsed =>
                  [SpanContent "Input" (subtitle parsed) (content parsed) e]
              | None => []
              end
            ++ and_render NumberText (prop a "tracebrain.llm.completion")
                 [SpanContent "Output" "AI"
                    (prop a "tracebrain.llm.completion") e]
        end
     ++ and_render NumberText (prop a "tracebrain.usage")
          [TokenUsageBar (prop a "tracebrain.usage") e])%list.
Proof.
  intros Ht a e. unfold spanChildren, spanGetInput, spanGetOutput,
    spanGetSystemPrompt, spanGetToolName, spanGetUsage.
  rewrite Ht. destruct t; simpl; rewrite ?app_nil_r; reflexivity.
Qed.

(** X11: a span whose type is neither tool_execution nor llm_inference, a
    span without a type among them, lists the system prompt and nothing
    else before the token usage bar: its tool and inference attributes are
    never shown. *)
Theorem spanChildren_other_types (span : Span) :
  spanGetType span <> JStr "tool_execution" ->
  spanGetType span <> JStr "llm_inference" ->
  titles (spanChildren parseLLMContent span) = ["System Prompt"].
Proof.
  intros Htool Hllm. unfold spanChildren.
  destruct (strict_eq_str (spanGetType span) "tool_execution") eqn:E1;
    [apply strict_eq_str_true in E1; contradiction |].
  destruct (strict_eq_str (spanGetType span) "llm_inference") eqn:E2;
    [apply strict_eq_str_true in E2; contradiction |].
  unfold and_render.
  destruct (truthy (spanGetUsage span)); [reflexivity |].
  destruct (spanGetUsage span); reflexivity.
Qed.

(** X12: the details pane and the row of the traces table agree on whether
    a trace has been evaluated: the pane shows the evaluation panel exactly
    when the row does not show the analysing state, and a selected trace
    hides any selected span. *)
Theorem evaluation_panel_iff_not_analyzing (trace : Trace)
  (span : option Span) :
  (evaluationPanel trace = None
   <-> Indicator.isAnalyzing (TraceRows.TraceRow trace) = true)
  /\ (forall evaluation, evaluationPanel trace = Some evaluation ->
       evaluation = TraceUtils.traceGetEvaluation trace
       /\ Indicator.confidence (TraceRows.TraceRow trace)
          = opt_prop evaluation "confidence")
  /\ TraceDetails parseLLMContent span (Some trace)
     = TraceView (trace_id trace) (evaluationPanel trace).
Proof.
  split; [| split; [| reflexivity]].
  - unfold evaluationPanel, TraceRows.TraceRow. simpl.
    destruct (truthy (TraceUtils.traceGetEvaluation trace)); simpl;
      split; congruence.
  - unfold evaluationPanel, TraceRows.TraceRow. simpl.
    destruct (truthy (TraceUtils.traceGetEvaluation trace));
      intros evaluation [= <-]; split; reflexivity.
Qed.

End DetailsPane.

Lemma spanChildren_by_type_witness :
  SpanUtils.spanGetType inference
  = JStr (SpanUtils.span_type_name SpanUtils.llm_inference)
  /\ TraceDetails.titles
       (TraceDetails.spanChildren
          (fun v => Some {| TraceDetails.subtitle := "User";
                            TraceDetails.content := v |})
          inference)
     = ["System Prompt"; "Input"; "Output"].
Proof.
  assert (H : SpanUtils.spanGetType inference
              = JStr (SpanUtils.span_type_name SpanUtils.llm_inference))
    by reflexivity.
  split; [exact H |].
  rewrite (spanChildren_by_type _ inference SpanUtils.llm_inference H).
  vm_compute. reflexivity.
Defined.

Lemma spanChildren_other_types_witness :
  SpanUtils.spanGetType hello <> JStr "tool_execution"
  /\ SpanUtils.spanGetType hello <> JStr "llm_inference"
  /\ TraceDetails.titles
       (TraceDetails.spanChildren (fun _ => None) hello)
     = ["System Prompt"].
Proof.
  assert (H1 : SpanUtils.spanGetType hello <> JStr "tool_execution")
    by discriminate.
  assert (H2 : SpanUtils.spanGetType hello <> JStr "llm_inference")
    by discriminate.
  split; [exact H1 | split; [exact H2 |]].
  exact (spanChildren_other_types (fun _ => None) hello H1 H2).
Defined.

(** ** The handlers of the filter panels, composed *)

Section FilterAlgebra.

Import TraceFiltersPanel FiltersPanel.

(** Handlers that commute pairwise can be run in any order. *)
Lemma foldr_commuting_perm {A : Type} (l1 l2 : list (A -> A)) :
  Permutation l1 l2 ->
  (forall g h, g ∈ l1 -> h ∈ l1 -> forall x, g (h x) = h (g x)) ->
  forall x, foldr (fun h a => h a) x l1 = foldr (fun h a => h a) x l2.
Proof.
  induction 1 as [|h l l' Hp IH|g h l|l l' l'' Hp1 IH1 Hp2 IH2];
    intros Hc x; simpl.
  - reflexivity.
  - f_equal. apply IH. intros g1 g2 H1 H2. apply Hc; right; assumption.
  - apply Hc; [left | right; left].
  - rewrite IH1 by exact Hc. apply IH2.
    intros g1 g2 H1 H2. apply Hc; rewrite Hp1; assumption.
Qed.

(** X13: clearing the five chips one after the other, in whatever order,
    leaves what the Clear all button leaves: the default filters, under
    which no chip is active. *)
Theorem clearing_every_chip_is_clearAll (f : TraceFilters)
  (handlers : list (TraceFilters -> TraceFilters)) :
  Permutation handlers
    [clearStatus; clearErrorType; clearMinRating; clearConfidence; clearDate] ->
  foldr (fun h a => h a) f handlers = clearAll
  /\ anyActive (foldr (fun h a => h a) f handlers) = false.
Proof.
  intros Hp.
  assert (E : foldr (fun h a => h a) f handlers = clearAll).
  { rewrite (foldr_commuting_perm _ _ Hp); [reflexivity |].
    intros g h Hg Hh x. rewrite Hp in Hg, Hh.
    repeat (apply elem_of_cons in Hg as [->|Hg]);
      try (apply elem_of_nil in Hg; contradiction);
      repeat (apply elem_of_cons in Hh as [->|Hh]);
      try (apply elem_of_nil in Hh; contradiction);
      reflexivity. }
  split; [exact E | rewrite E; reflexivity].
Qed.

Lemma clearing_every_chip_is_clearAll_witness :
  Permutation
    [clearDate; clearStatus; clearConfidence; clearMinRating; clearErrorType]
    [clearStatus; clearErrorType; clearMinRating; clearConfidence; clearDate]
  /\ clearDate (clearStatus (clearConfidence (clearMinRating (clearErrorType
       {| status := "failed"; errorType := "logic_loop";
          minRating := Some (of_Z 3); minConfidence := Some (decimal 2 1);
          maxConfidence := None; startTime := "2026-10-27";
          endTime := "" |}))))
     = clearAll.
Proof.
  assert (Hp : Permutation
    [clearDate; clearStatus; clearConfidence; clearMinRating; clearErrorType]
    [clearStatus; clearErrorType; clearMinRating; clearConfidence; clearDate]).
  { apply (Permutation_cons_app [clearStatus; clearErrorType; clearMinRating;
                                  clearConfidence] []).
    apply perm_skip.
    apply (Permutation_cons_app [clearErrorType; clearMinRating] []).
    apply perm_swap. }
  split; [exact Hp |].
  exact (proj1 (clearing_every_chip_is_clearAll _ _ Hp)).
Defined.

(** X14: the two confidence boxes are committed independently of each
    other: the two commits commute, a box that is not empty makes the
    confidence chip active whatever was typed, and no commit compares the
    two bounds, so a minimum above the maximum is stored as typed. *)
Theorem commit_bounds_independent (f : TraceFilters) (a b : string) :
  commitMin (commitMax f b) a = commitMax (commitMin f a) b
  /\ (a <> "" -> confActive (commitMin f a) = true)
  /\ (b <> "" -> confActive (commitMax f b) = true)
  /\ confActive (commitMin f "") = bool_decide (maxConfidence f <> None)
  /\ confActive (commitMax f "") = bool_decide (minConfidence f <> None)
  /\ (let f' := commitMax (commitMin f "0.9") "0.1" in
      minConfidence f' = Some (decimal 9 1)
      /\ maxConfidence f' = Some (decimal 1 1)
      /\ lt (decimal 1 1) (decimal 9 1) = true).
Proof.
  split; [| split; [| split; [| split; [| split]]]].
  - unfold commitMin, commitMax.
    destruct (String.eqb a ""), (String.eqb b ""); reflexivity.
  - intros Ha. unfold commitMin.
    destruct (String.eqb_spec a ""); [contradiction | reflexivity].
  - intros Hb. unfold commitMax.
    destruct (String.eqb_spec b ""); [contradiction |].
    unfold confActive. apply orb_true_iff. right. reflexivity.
  - reflexivity.
  - unfold confActive, commitMax. simpl. apply orb_false_r.
  - vm_compute. repeat split; reflexivity.
Qed.


End FilterAlgebra.

(** ** The date chip *)

Section DateChip.

Import JSDate TraceFiltersPanel FiltersPanel.

Lemma pad_S_nonempty (k : nat) (n : Z) :
  exists c s, pad (S k) n = String c s.
Proof.
  revert n. induction k as [|k IH]; intros n.
  - eexists _, _. reflexivity.
  - destruct (IH (n / 10)) as (c & s & E).
    exists c, (s ++ String (digit_char (n mod 10)) "")%string.
    change (pad (S (S k)) n)
      with (pad (S k) (n / 10) ++ String (digit_char (n mod 10)) "")%string.
    rewrite E. reflexivity.
Qed.

Lemma year_string_nonempty (y : Z) : exists c s, year_string y = String c s.
Proof.
  unfold year_string. destruct ((0 <=? y) && (y <=? 9999)).
  - apply pad_S_nonempty.
  - destruct (y <? 0); eexists _, _; reflexivity.
Qed.

(** The first ten characters of a time stamp are never the empty string. *)
Lemma slice_toISOString_nonempty (t : Z) : slice_0_10 (toISOString t) <> "".
Proof.
  unfold toISOString, slice_0_10.
  destruct (year_string_nonempty (YearFromTime t)) as (c & s & E).
  cbv zeta. rewrite E. discriminate.
Qed.

Lemma parse_nonempty (s : string) (t : Z) : parse s = Some t -> s <> "".
Proof. intros H ->. discriminate H. Qed.

(** X16: whatever the zone, the clock and the preset, applying a preset
    leaves the date chip active and changes the two dates only. *)
Theorem applyPreset_sets_dates_only (f : TraceFilters) (tz : TimeZone)
  (now now' days : Z) :
  let f' := applyPreset f tz now now' days in
  dateActive f' = true
  /\ startTime f' <> "" /\ endTime f' <> ""
  /\ endTime f' = slice_0_10 (toISOString now)
  /\ status f' = status f /\ errorType f' = errorType f
  /\ minRating f' = minRating f
  /\ minConfidence f' = minConfidence f
  /\ maxConfidence f' = maxConfidence f.
Proof.
  intros f'. subst f'. unfold applyPreset, dateActive.
  destruct (days =? 0);
    cbn [set spread startTime endTime status errorType minRating
         minConfidence maxConfidence default from_option
         p_status p_errorType p_minRating p_minConfidence p_maxConfidence
         p_startTime p_endTime];
    rewrite !truthy_str_true by apply slice_toISOString_nonempty;
    repeat split; apply slice_toISOString_nonempty.
Qed.

(** X17: the preset Today in every zone.  For a clock within the years 0
    to 9999, both dates are set to the UTC date of the clock, whatever the
    local date is, and Today is the active preset afterwards. *)
Theorem applyPreset_today_any_zone (f : TraceFilters) (tz : TimeZone)
  (now now' : Z) :
  -62167219200000 <= now < 253402300800000 ->
  let f' := applyPreset f tz now now' 0 in
  startTime f'
  = date_string (YearFromTime now) (MonthFromTime now + 1) (DateFromTime now)
  /\ endTime f' = startTime f'
  /\ activeDatePreset parse f' = Some "Today"
  /\ dateLabel parse f' = PresetLabel "Today".
Proof.
  intros Hnow f'.
  assert (Hy : 0 <= YearFromTime now <= 9999)
    by (apply YearFromTime_four_digits; exact Hnow).
  destruct (parse_slice_toISOString now Hy) as [Hp Hne].
  assert (Hs : startTime f' = slice_0_10 (toISOString now)) by reflexivity.
  assert (He : endTime f' = slice_0_10 (toISOString now)) by reflexivity.
  assert (Ha : activeDatePreset parse f' = Some "Today").
  { apply (activeDatePreset_days_apart f' (Day now * msPerDay)
             (Day now * msPerDay) "Today" 0).
    - left. reflexivity.
    - rewrite Hs. exact Hne.
    - rewrite He. exact Hne.
    - rewrite He. exact Hp.
    - rewrite Hs. exact Hp.
    - lia. }
  split; [rewrite Hs; apply slice_toISOString, Hy |].
  split; [rewrite He, Hs; reflexivity |].
  split; [exact Ha |].
  unfold dateLabel, dateActive. rewrite Ha, Hs.
  rewrite (truthy_str_true _ Hne). reflexivity.
Qed.

Lemma applyPreset_today_any_zone_witness :
  -62167219200000 <= monday_evening < 253402300800000
  /\ toISOString (LocalTime new_york monday_evening)
     = "2026-11-02T19:30:00.000Z"
  /\ startTime (applyPreset DEFAULT_TRACE_FILTERS new_york
                  monday_evening monday_evening 0)
     = "2026-11-03"
  /\ activeDatePreset parse (applyPreset DEFAULT_TRACE_FILTERS new_york
                         monday_evening monday_evening 0)
     = Some "Today".
Proof.
  assert (H : -62167219200000 <= monday_evening < 253402300800000)
    by (unfold monday_evening; lia).
  split; [exact H |].
  split; [vm_compute; reflexivity |].
  destruct (applyPreset_today_any_zone DEFAULT_TRACE_FILTERS new_york
              monday_evening monday_evening H) as (Hs & _ & Ha & _).
  split; [rewrite Hs; vm_compute; reflexivity | exact Ha].
Defined.

Lemma num_eq_nan_r (x : number) : num_eq x NaN = false.
Proof. destruct x; reflexivity. Qed.

Lemma diffDays_unread (getTime : string -> option Z) (f : TraceFilters) :
  getTime (endTime f) = None \/ getTime (startTime f) = None ->
  diffDays getTime f = NaN.
Proof.
  unfold diffDays. intros [H|H]; rewrite H;
    [| destruct (getTime (endTime f))]; vm_compute; reflexivity.
Qed.

(** X18: whatever the engine reads a string as, when a preset is active
    both dates are set and are read as dates, and the label is that of the
    one preset whose number of days is the rounded number of days from the
    start date to the end date.  With a date missing or not read as a date,
    no preset is active. *)
Theorem activeDatePreset_sound (getTime : string -> option Z)
  (f : TraceFilters) (label : string) :
  activeDatePreset getTime f = Some label ->
  startTime f <> "" /\ endTime f <> ""
  /\ (exists e s,
        getTime (endTime f) = Some e /\ getTime (startTime f) = Some s)
  /\ exists days,
       In (label, days) DATE_PRESETS
       /\ num_eq (of_Z days) (diffDays getTime f) = true
       /\ forall days', In (label, days') DATE_PRESETS -> days' = days.
Proof.
  unfold activeDatePreset. intros H.
  destruct (truthy_str (startTime f)) eqn:Hs; [| discriminate].
  destruct (truthy_str (endTime f)) eqn:He; [| discriminate].
  cbn [negb orb] in H.
  destruct (List.find _ DATE_PRESETS) as [[l d]|] eqn:E; [| discriminate].
  injection H as ->. apply find_some in E as [Hin Heq]. simpl in Heq.
  split; [intros C; apply truthy_str_false in C; congruence |].
  split; [intros C; apply truthy_str_false in C; congruence |].
  split.
  - destruct (getTime (endTime f)) as [e|] eqn:Pe;
      [destruct (getTime (startTime f)) as [s|] eqn:Ps; [eauto |] |];
      rewrite diffDays_unread, num_eq_nan_r in Heq by auto; discriminate.
  - exists d. split; [exact Hin |]. split; [exact Heq |].
    intros d' Hin'. clear -Hin Hin'. simpl in Hin, Hin'.
    destruct Hin as [H|[H|[H|[H|[H|[H|[]]]]]]];
      destruct Hin' as [H'|[H'|[H'|[H'|[H'|[H'|[]]]]]]]; congruence.
Qed.

Lemma activeDatePreset_sound_witness :
  let f := changeTo (changeFrom DEFAULT_TRACE_FILTERS "2026-10-27")
             "2026-11-03" in
  activeDatePreset parse f = Some "Last week"
  /\ exists days,
       In ("Last week", days) DATE_PRESETS
       /\ num_eq (of_Z days) (diffDays parse f) = true
       /\ forall days', In ("Last week", days') DATE_PRESETS -> days' = days.
Proof.
  intros f.
  assert (H : activeDatePreset parse f = Some "Last week")
    by (vm_compute; reflexivity).
  split; [exact H |].
  exact (proj2 (proj2 (proj2 (activeDatePreset_sound parse f "Last week"
                                H)))).
Defined.

(** X19: a range typed into the two date inputs, in either order, whose
    ends are dates as many days apart as a preset has, shows that preset as
    the active one and as the label of the chip. *)
Theorem typed_range_shows_preset (f : TraceFilters) (from to : string)
  (s e : Z) (label : string) (days : Z) :
  In (label, days) DATE_PRESETS ->
  parse from = Some s -> parse to = Some e ->
  e - s = days * msPerDay ->
  let f' := changeTo (changeFrom f from) to in
  f' = changeFrom (changeTo f to) from
  /\ activeDatePreset parse f' = Some label
  /\ dateLabel parse f' = PresetLabel label.
Proof.
  intros Hin Hs He Hd f'.
  assert (Ha : activeDatePreset parse f' = Some label).
  { apply (activeDatePreset_days_apart f' e s label days Hin).
    - exact (parse_nonempty _ _ Hs).
    - exact (parse_nonempty _ _ He).
    - exact He.
    - exact Hs.
    - exact Hd. }
  split; [reflexivity | split; [exact Ha |]].
  unfold dateLabel, dateActive. rewrite Ha.
  change (startTime f') with from.
  rewrite (truthy_str_true _ (parse_nonempty _ _ Hs)). reflexivity.
Qed.

Lemma typed_range_shows_preset_witness :
  In ("Last month", 28) DATE_PRESETS
  /\ parse "2026-02-01" = Some 1769904000000
  /\ parse "2026-03-01" = Some 1772323200000
  /\ 1772323200000 - 1769904000000 = 28 * msPerDay
  /\ dateLabel parse (changeTo (changeFrom DEFAULT_TRACE_FILTERS "2026-02-01")
                  "2026-03-01")
     = PresetLabel "Last month".
Proof.
  assert (H1 : In ("Last month", 28) DATE_PRESETS)
    by (right; right; right; left; reflexivity).
  assert (H2 : parse "2026-02-01" = Some 1769904000000)
    by (vm_compute; reflexivity).
  assert (H3 : parse "2026-03-01" = Some 1772323200000)
    by (vm_compute; reflexivity).
  assert (H4 : 1772323200000 - 1769904000000 = 28 * msPerDay)
    by (vm_compute; reflexivity).
  split; [exact H1 | split; [exact H2 | split; [exact H3 | split; [exact H4 |]]]].
  exact (proj2 (proj2 (typed_range_shows_preset DEFAULT_TRACE_FILTERS
                         "2026-02-01" "2026-03-01" _ _ _ _ H1 H2 H3 H4))).
Defined.

Lemma calendar_same_day (t t' : Z) :
  Day t = Day t' ->
  YearFromTime t = YearFromTime t' /\ MonthFromTime t = MonthFromTime t'
  /\ DateFromTime t = DateFromTime t'.
Proof.
  intros H. unfold DateFromTime, MonthFromTime, DayWithinYear, YearFromTime.
  rewrite H. auto.
Qed.

(** X21: in a zone at a constant offset from UTC, when the two readings of
    the clock fall on the same local day and on the same UTC day within the
    years 1 to 9999, applying a preset sets the range from that many days
    before the UTC date of the clock to that date, and the preset is the
    active one and the label of the chip afterwards. *)
Theorem applyPreset_fixed_zone_two_readings
  (f : TraceFilters) (offset now now' : Z) (label : string) (days : Z) :
  In (label, days) DATE_PRESETS ->
  -62135596800000 <= now < 253402300800000 ->
  Day (now + offset) = Day (now' + offset) ->
  Day now = Day now' ->
  let f' := applyPreset f (fixed_zone offset) now now' days in
  parse (startTime f') = Some ((Day now - days) * msPerDay)
  /\ parse (endTime f') = Some (Day now * msPerDay)
  /\ activeDatePreset parse f' = Some label
  /\ dateLabel parse f' = PresetLabel label.
Proof.
  intros Hin Hnow Hlocal Hutc f'.
  assert (Hdays : 0 <= days <= 365).
  { clear -Hin. repeat (destruct Hin as [[= <- <-]|Hin]; [lia |]). destruct Hin. }
  assert (Hnow' : -62135596800000 <= now' < 253402300800000).
  { revert Hutc. unfold Day, msPerDay. Z.div_mod_to_equations. lia. }
  assert (Hy : 0 <= YearFromTime now <= 9999)
    by (apply YearFromTime_four_digits; lia).
  assert (Hy' : 0 <= YearFromTime (now' - days * msPerDay) <= 9999)
    by (apply YearFromTime_four_digits; unfold msPerDay; lia).
  destruct (parse_slice_toISOString now Hy) as [Hpe Hne].
  destruct (parse_slice_toISOString _ Hy') as [Hps Hns].
  assert (Hday : Day (now' - days * msPerDay) = Day now - days).
  { rewrite Hutc. unfold Day, msPerDay. Z.div_mod_to_equations. lia. }
  assert (Hset : setDate (fixed_zone offset) now'
                   (getDate (fixed_zone offset) now - days)
                 = now' - days * msPerDay).
  { rewrite <- (setDate_fixed offset now' days). unfold getDate, LocalTime.
    simpl. destruct (calendar_same_day _ _ Hlocal) as (_ & _ & ->).
    reflexivity. }
  assert (Hs : startTime f'
               = slice_0_10 (toISOString (now' - days * msPerDay))).
  { subst f'. unfold applyPreset. destruct (Z.eqb_spec days 0) as [->|Hne0].
    - cbn [set spread startTime default p_startTime from_option].
      rewrite Z.mul_0_l, Z.sub_0_r.
      assert (Hsame : slice_0_10 (toISOString now)
                      = slice_0_10 (toISOString now')).
      { assert (Hyn : 0 <= YearFromTime now' <= 9999)
          by (apply YearFromTime_four_digits; lia).
        rewrite !slice_toISOString by assumption.
        destruct (calendar_same_day _ _ Hutc) as (-> & -> & ->). reflexivity. }
      exact Hsame.
    - rewrite Hset. reflexivity. }
  assert (He : endTime f' = slice_0_10 (toISOString now)).
  { subst f'. unfold applyPreset. destruct (days =? 0); reflexivity. }
  assert (Ha : activeDatePreset parse f' = Some label).
  { apply (activeDatePreset_days_apart f' (Day now * msPerDay)
             (Day (now' - days * msPerDay) * msPerDay) label days Hin).
    - rewrite Hs. exact Hns.
    - rewrite He. exact Hne.
    - rewrite He. exact Hpe.
    - rewrite Hs. exact Hps.
    - rewrite Hday. lia. }
  split; [rewrite Hs, Hps, Hday; reflexivity |].
  split; [rewrite He; exact Hpe |].
  split; [exact Ha |].
  unfold dateLabel, dateActive. rewrite Ha, Hs.
  rewrite (truthy_str_true _ Hns). reflexivity.
Qed.

Lemma applyPreset_fixed_zone_two_readings_witness :
  In ("Last week", 7) DATE_PRESETS
  /\ -62135596800000 <= monday_evening < 253402300800000
  /\ Day (monday_evening + -18000000) = Day (monday_evening + 5 + -18000000)
  /\ Day monday_evening = Day (monday_evening + 5)
  /\ activeDatePreset parse
       (applyPreset DEFAULT_TRACE_FILTERS (fixed_zone (-18000000))
          monday_evening (monday_evening + 5) 7)
     = Some "Last week".
Proof.
  assert (H1 : In ("Last week", 7) DATE_PRESETS)
    by (right; right; left; reflexivity).
  assert (H2 : -62135596800000 <= monday_evening < 253402300800000)
    by (unfold monday_evening; lia).
  assert (H3 : Day (monday_evening + -18000000)
               = Day (monday_evening + 5 + -18000000)) by reflexivity.
  assert (H4 : Day monday_evening = Day (monday_evening + 5)) by reflexivity.
  split; [exact H1 | split; [exact H2 | split; [exact H3 | split; [exact H4 |]]]].
  exact (proj1 (proj2 (proj2 (applyPreset_fixed_zone_two_readings
           DEFAULT_TRACE_FILTERS (-18000000) monday_evening
           (monday_evening + 5) "Last week" 7 H1 H2 H3 H4)))).
Defined.

End DateChip.
